(** * parserEol: the harvesting pipeline of the stanki.ru catalogue parser

    A shallow embedding of the Go program's core (the retrying fetcher,
    the encoding normaliser, the pagination oracle, the category walker,
    the enrichment merger and the deduplicator) together with the
    properties its specification states about them.

    Conventions.
    - A Go [string] (and a [[]byte]) is a sequence of bytes: [string].
    - A Go [int] is 64 bits wide: a [Z], with the wrap-around written out
      where the program can reach it ([wrap64]).
    - A Go function returning [(T, error)] returns a [result T]; a run-time
      panic is a third outcome.
    - Network, clock and log are effects on an explicit [state]; the remote
      site, the charset tables and the HTML parser are parameters. *)

From Stdlib Require Import ZArith Lia Ascii String List DecimalString.
From stdpp Require Import gmap strings list fin_maps.

Local Open Scope string_scope.
Local Open Scope list_scope.
Local Open Scope Z_scope.

(** ** Go's [strings], [strconv] and [fmt] functions used by the program *)

Module GoString.

(** [strings.Contains(s, substr)]. *)
Fixpoint Contains (s substr : string) : bool :=
  if String.prefix substr s then true
  else match s with
       | EmptyString => false
       | String _ s' => Contains s' substr
       end.

(** [strings.Split(s, sep)] for a non-empty [sep] (every call site of the
    program passes a literal separator).  [skip] counts the bytes of a
    separator that has just been matched and is still to be dropped;
    [cur] is the segment being read. *)
Fixpoint split_from (sep s : string) (skip : nat) (cur : string) : list string :=
  match s with
  | EmptyString => [cur]
  | String c s' =>
      match skip with
      | S k => split_from sep s' k cur
      | O =>
          if String.prefix sep s
          then cur :: split_from sep s' (Nat.pred (String.length sep)) EmptyString
          else split_from sep s' O (cur +:+ String c EmptyString)
      end
  end.

Definition Split (s sep : string) : list string := split_from sep s O EmptyString.

(** Number of occurrences of the byte [c] in [s]. *)
Fixpoint count_byte (c : ascii) (s : string) : nat :=
  match s with
  | EmptyString => O
  | String d s' => if Ascii.eqb d c then S (count_byte c s') else count_byte c s'
  end.

Definition min_int : Z := - 2 ^ 63.
Definition max_int : Z := 2 ^ 63 - 1.

(** Two's-complement wrap-around of 64-bit arithmetic. *)
Definition wrap64 (z : Z) : Z := (z + 2 ^ 63) mod 2 ^ 64 - 2 ^ 63.

Definition digit_of (c : ascii) : option Z :=
  let n := Z.of_N (N_of_ascii c) in
  if (48 <=? n) && (n <=? 57) then Some (n - 48) else None.

Fixpoint parse_digits (s : string) (acc : Z) : option Z :=
  match s with
  | EmptyString => Some acc
  | String c s' =>
      match digit_of c with
      | Some d => parse_digits s' (10 * acc + d)
      | None => None
      end
  end.

(** [strconv.Atoi(s)]: an optional sign, then one or more decimal digits,
    and a value that fits an [int]; [None] stands for a non-nil error. *)
Definition Atoi (s : string) : option Z :=
  let '(neg, body) :=
    match s with
    | String "+"%char r => (false, r)
    | String "-"%char r => (true, r)
    | _ => (false, s)
    end in
  match body with
  | EmptyString => None
  | _ =>
      match parse_digits body 0 with
      | Some n =>
          let v := if neg then - n else n in
          if (min_int <=? v) && (v <=? max_int) then Some v else None
      | None => None
      end
  end.

(** [fmt.Sprintf("%d", n)]. *)
Definition Itoa (n : Z) : string := NilZero.string_of_int (Z.to_int n).

End GoString.

Import GoString.

(** ** Data model *)

(** [type Product struct]. *)
Record Product := mkProduct {
  ID : string;
  Name : string;
  URL : string;
  Description : string;
  Price : string;
  ImageURL : string;
  Category_ : string;          (* the field [Category] *)
  Features : list string
}.

(** [Product{}], the zero value. *)
Definition zeroProduct : Product := mkProduct "" "" "" "" "" "" "" [].

(** [type Category struct]. *)
Record Category := mkCategory {
  CatName : string;            (* the field [Name] *)
  CatURL : string              (* the field [URL] *)
}.

Definition baseURL : string := "https://www.stanki.ru".
Definition catalogURL : string := "https://www.stanki.ru/catalog/".
Definition delay : Z := 500.

(** ** The parsed page, as goquery shows it to the program

    The HTML parser and the CSS selector engine are libraries.  An element
    is what the program reads from it: its attributes, its text content and
    the elements a selector finds below it. *)

#[warnings="-register-all"] Inductive Node : Type :=
  mkNode (attrs : list (string * string)) (text : string) (find : string -> list Node).

(** A goquery [Selection]: the matched elements, in document order. *)
Definition Selection : Type := list Node.

Definition node_attrs (n : Node) : list (string * string) :=
  let 'mkNode a _ _ := n in a.
Definition node_text (n : Node) : string :=
  let 'mkNode _ t _ := n in t.
Definition node_find (n : Node) (selector : string) : Selection :=
  let 'mkNode _ _ f := n in f selector.

Fixpoint lookup_attr (name : string) (a : list (string * string)) : option string :=
  match a with
  | [] => None
  | (k, v) :: a' => if String.eqb k name then Some v else lookup_attr name a'
  end.

(** [s.Attr(name)]: the attribute of the first element of the selection. *)
Definition Attr (s : Selection) (name : string) : option string :=
  match s with
  | [] => None
  | n :: _ => lookup_attr name (node_attrs n)
  end.

(** [v, _ := s.Attr(name)]: the empty string when the attribute is absent. *)
Definition AttrOr (s : Selection) (name : string) : string :=
  match Attr s name with Some v => v | None => "" end.

(** [s.Text()]: the text of all the matched elements. *)
Definition Text (s : Selection) : string :=
  String.concat "" (map node_text s).

(** [s.Find(selector)]. *)
Definition Find (s : Selection) (selector : string) : Selection :=
  flat_map (fun n => node_find n selector) s.

(** [*goquery.Document]: the root and the outcome of [doc.Html()]. *)
Record Document := mkDocument {
  doc_root : Node;
  doc_html : option string
}.

Definition docFind (doc : Document) (selector : string) : Selection :=
  node_find (doc_root doc) selector.

(** A leaf element, for building pages. *)
Definition leaf (attrs : list (string * string)) (text : string) : Node :=
  mkNode attrs text (fun _ => []).

(** ** Errors and outcomes *)

Inductive error : Type :=
| ErrRetries (url : string) (maxRetries : Z) (cause : option string)
    (* "не удалось выполнить запрос после %d попыток: %v" *)
| ErrCatalogStatus (code : Z)
    (* "ошибка при получении страницы каталога: %d" *)
| ErrProductStatus (code : Z)
    (* "ошибка при получении страницы товара: %d" *)
| ErrRead (msg : string)
    (* the error of io.ReadAll *)
| ErrParse (msg : string).
    (* the error of goquery.NewDocumentFromReader *)

Inductive result (A : Type) : Type :=
| Ok (a : A)
| Err (e : error)
| Panic (msg : string).
Arguments Ok {A} a.
Arguments Err {A} e.
Arguments Panic {A} msg.

(** ** The world: network, clock and log *)

(** [resp.Body], read to its end by [io.ReadAll]. *)
Inductive Body : Type :=
| BodyBytes (b : string)
| BodyError (msg : string).

Record Response := mkResponse {
  StatusCode : Z;
  RespBody : Body
}.

(** The outcome of one [client.Get]. *)
Inductive GetResult : Type :=
| GetOk (resp : Response)
| GetErr (msg : string).

Inductive event : Type :=
| EvGet (url : string)                              (* client.Get(url) *)
| EvSleep (ns : Z)                                  (* time.Sleep(ns), nanoseconds *)
| EvLogRetry (url : string) (attempt maxRetries : Z)  (* the fetcher's retry line *)
| EvLogPage (pageNum : Z) (pageURL : string)        (* the walker's line before a page *)
| EvLogFound (found : Z) (pageNum : Z) (total : Z)  (* the walker's line after a page *)
| EvLogExtract (found : Z) (hasNextPage : bool).    (* the extractor's line *)

(** [trace] is the history, oldest event first; [gets] counts the calls of
    [client.Get] so far, so that the site may answer differently each time. *)
Record state := mkState {
  trace : list event;
  gets : nat
}.

Definition init : state := mkState [] O.

Definition M (A : Type) : Type := state -> result A * state.

Definition ret {A} (a : A) : M A := fun st => (Ok a, st).
Definition fail {A} (e : error) : M A := fun st => (Err e, st).
Definition panic {A} (msg : string) : M A := fun st => (Panic msg, st).

Definition bind {A B} (m : M A) (k : A -> M B) : M B :=
  fun st =>
    match m st with
    | (Ok a, st') => k a st'
    | (Err e, st') => (Err e, st')
    | (Panic p, st') => (Panic p, st')
    end.

Notation "'do' x <- m ; k" := (bind m (fun x => k))
  (at level 10, x name, m at level 100, k at level 200).
Notation "'run' m ; k" := (bind m (fun _ => k))
  (at level 10, m at level 100, k at level 200).

Definition emit (e : event) : M unit :=
  fun st => (Ok tt, mkState (trace st ++ [e]) (gets st)).

Definition millisecond : Z := 1000000.

(** [time.Sleep(time.Duration(ms) * time.Millisecond)]. *)
Definition sleep_ms (ms : Z) : M unit := emit (EvSleep (wrap64 (ms * millisecond))).

Definition is_get (e : event) : bool :=
  match e with EvGet _ => true | _ => false end.
Definition is_page (e : event) : bool :=
  match e with EvLogPage _ _ => true | _ => false end.
Definition sleep_of (e : event) : option Z :=
  match e with EvSleep ns => Some ns | _ => None end.

(** The HTTP attempts, the page fetches and the sleeps of a history. *)
Definition attempts (t : list event) : nat := length (filter (fun e => is_get e = true) t).
Definition page_fetches (t : list event) : nat := length (filter (fun e => is_page e = true) t).
Definition sleeps (t : list event) : list Z := omap sleep_of t.

(** [len(x)] of a slice, as a Go [int]. *)
Definition len {A} (l : list A) : Z := Z.of_nat (length l).

(** The site-independent part of the program, over the libraries it calls. *)
Section Pipeline.

(** The remote site: the answer to the [n]-th [client.Get] of the run.  Any
    answer is admitted here; what the client of the program cannot return
    is excluded, where a property depends on it, by [default_transport]. *)
Variable net : nat -> string -> GetResult.

(** [golang.org/x/net/html/charset] and [golang.org/x/text]: the encodings,
    the sniffer, the Windows-1251 table, and what a decoder of an encoding
    makes of a byte sequence. *)
Variable Encoding : Type.
Variable DetermineEncoding : string -> Encoding.
Variable Windows1251 : Encoding.
Variable decode : Encoding -> string -> string.

(** [goquery.NewDocumentFromReader] on the decoded text. *)
Variable NewDocumentFromReader : string -> Document + string.

(** [strings.TrimSpace] and [strings.ToLower] (Unicode tables). *)
Variable TrimSpace : string -> string.
Variable ToLower : string -> string.

(** *** Fetcher *)

Definition clientGet (url : string) : M GetResult :=
  fun st => (Ok (net (gets st) url),
             mkState (trace st ++ [EvGet url]) (S (gets st))).

(** [time.Duration(delayMs*(i+1)) * time.Millisecond], in nanoseconds. *)
Definition backoff (delayMs attempt : Z) : Z :=
  wrap64 (wrap64 (delayMs * attempt) * millisecond).

(** The largest delay, in milliseconds, whose triple still fits a
    [time.Duration]. *)
Definition max_delay : Z := 3074457345618.

(** The loop of [doRequestWithRetry]: [n] iterations are left, [i] is the
    loop counter and [err] the error of the last attempt. *)
Fixpoint retry_loop (url : string) (maxRetries delayMs : Z)
         (n : nat) (i : Z) (err : option string) : M Response :=
  match n with
  | O => fail (ErrRetries url maxRetries err)
  | S n' =>
      do r <- clientGet url;
      match r with
      | GetOk resp => ret resp
      | GetErr msg =>
          run emit (EvLogRetry url (i + 1) maxRetries);
          run emit (EvSleep (backoff delayMs (i + 1)));
          retry_loop url maxRetries delayMs n' (i + 1) (Some msg)
      end
  end.

Definition doRequestWithRetry (url : string) (maxRetries delayMs : Z) : M Response :=
  retry_loop url maxRetries delayMs (Z.to_nat maxRetries) 0 None.

(** *** Encoding normaliser *)

(** ["\xef\xbf\xbd"] and ["�"]: the same three bytes. *)
Definition marker_bytes : string :=
  String (ascii_of_nat 239) (String (ascii_of_nat 191) (String (ascii_of_nat 189) EmptyString)).
Definition marker_rune : string := "�".

(** The encoding [e] that [getUTF8Reader] hands to the decoder. *)
Definition chosenEncoding (b : string) : Encoding :=
  let e := DetermineEncoding b in
  let contentStr := b in
  if Contains contentStr marker_bytes || Contains contentStr marker_rune
  then Windows1251
  else e.

(** [getUTF8Reader(r)]: the text that the returned reader yields. *)
Definition getUTF8Reader (r : Body) : M string :=
  match r with
  | BodyError msg => fail (ErrRead msg)
  | BodyBytes b => ret (decode (chosenEncoding b) b)
  end.

Definition newDocument (utf8 : string) : M Document :=
  match NewDocumentFromReader utf8 with
  | inl doc => ret doc
  | inr msg => fail (ErrParse msg)
  end.

(** *** Page extraction *)

(** [sel.Each(f)] for a callback that may raise the flag [hasNextPage]:
    [return] leaves the callback only, so every element is visited. *)
Definition EachFlag (fires : Node -> bool) (sel : Selection) (flag : bool) : bool :=
  fold_left (fun h s => if fires s then true else h) sel flag.

(** The first image of the preview: [if j == 0 { ... imgURL = src }]. *)
Definition first_src (imgs : Selection) : string :=
  match imgs with
  | [] => ""
  | img :: _ => match Attr [img] "src" with Some src => src | None => "" end
  end.

(** The non-empty trimmed texts of a selection, in order. *)
Definition feature_texts (sel : Selection) : list string :=
  fold_left
    (fun features p =>
       let feature := TrimSpace (Text [p]) in
       if String.eqb feature "" then features else features ++ [feature])
    sel [].

(** The callback over [doc.Find("[data-product-id]")]: the product of one
    card, or nothing when the id or the link is missing. *)
Definition productOfCard (category : Category) (s : Node) : option Product :=
  match Attr [s] "data-product-id" with
  | None => None
  | Some productID =>
      let nameElement := Find [s] ".productCard__name" in
      let name := TrimSpace (Text nameElement) in
      match Attr nameElement "href" with
      | None => None
      | Some url =>
          let price := TrimSpace (Text (Find [s] ".productCard__price")) in
          let imgURL := first_src (Find [s] ".productCard__preview img") in
          let features := feature_texts (Find [s] ".productCard__params p") in
          Some {| ID := productID;
                  Name := name;
                  URL := baseURL +:+ url;
                  Description := "";
                  Price := price;
                  ImageURL := baseURL +:+ imgURL;
                  Category_ := CatName category;
                  Features := features |}
      end
  end.

Definition productsOfPage (doc : Document) (category : Category) : list Product :=
  fold_left
    (fun products s =>
       match productOfCard category s with
       | Some product => products ++ [product]
       | None => products
       end)
    (docFind doc "[data-product-id]") [].

(** *** Pagination oracle *)

Definition paginationSelectors : list string :=
  [".pagination"; ".paginations"; ".nav-links"; ".pager";
   ".pages"; ".pagenation"; ".modern-page-navigation"].

(** Heuristic 1, one element of
    [doc.Find("[data-pagination-button], [data-pagination-more]")]. *)
Definition button_fires (s : Node) : bool :=
  if existsb
       (fun attr =>
          match Attr [s] attr with
          | Some href => Contains href "PAGEN_2="
          | None => false
          end)
       ["data-pagination-button"; "data-pagination-more"]
  then true
  else
    let class := AttrOr [s] "class" in
    let disabled := AttrOr [s] "disabled" in
    Contains class "button_next" && String.eqb disabled "".

Definition heuristic1 (doc : Document) : bool :=
  EachFlag button_fires
    (docFind doc "[data-pagination-button], [data-pagination-more]") false.

(** Heuristic 2, one descendant of a pagination container. *)
Definition control_fires (s : Node) : bool :=
  let text := ToLower (TrimSpace (Text [s])) in
  let class := AttrOr [s] "class" in
  let href := Attr [s] "href" in
  let disabled := AttrOr [s] "disabled" in
  if negb (String.eqb disabled "") then false
  else
    Contains text "след"
    || Contains text "next"
    || Contains text "показать еще"
    || Contains class "next"
    || Contains class "button_next"
    || Contains class "modern-page-next"
    || match href with Some h => Contains h "PAGEN_2=" | None => false end.

Definition heuristic2 (doc : Document) : bool :=
  fold_left
    (fun h selector =>
       let paginationElement := docFind doc selector in
       if 0 <? len paginationElement
       then EachFlag control_fires (Find paginationElement "a, span, div, button") h
       else h)
    paginationSelectors false.

(** The page index that a URL carries after ["PAGEN_2="], as the program
    reads it: [strings.Split(strings.Split(u, "PAGEN_2=")[1], "&")[0]]
    given to [strconv.Atoi].  The caller has checked [len(parts) > 1]. *)
Definition pageIndexOf (parts : list string) : option Z :=
  Atoi (nth 0 (Split (nth 1 parts "") "&") "").

(** Heuristic 3, one element of [doc.Find("a")]. *)
Definition link_fires (category : Category) (s : Node) : bool :=
  match Attr [s] "href" with
  | Some href =>
      if Contains href "PAGEN_2=" then
        if Contains (CatURL category) "PAGEN_2=" then
          let currentPageParts := Split (CatURL category) "PAGEN_2=" in
          if 1 <? len currentPageParts then
            let currentPage := pageIndexOf currentPageParts in
            let nextPageParts := Split href "PAGEN_2=" in
            if 1 <? len nextPageParts then
              match currentPage, pageIndexOf nextPageParts with
              | Some cur, Some next => cur <? next
              | _, _ => false
              end
            else false
          else false
        else true
      else false
  | None => false
  end.

Definition heuristic3 (doc : Document) (category : Category) : bool :=
  EachFlag (link_fires category) (docFind doc "a") false.

Definition heuristic4 (doc : Document) : bool :=
  match doc_html doc with
  | Some html =>
      if Contains html "NavPageNomer" && Contains html "NavPageCount"
      then negb (Contains html "NavPageNomer=NavPageCount")
      else false
  | None => false
  end.

Definition script_fires (s : Node) : bool :=
  let script := Text [s] in
  Contains script "bxajaxid" && Contains script "pagen".

Definition heuristic5 (doc : Document) : bool :=
  EachFlag script_fires (docFind doc "script") false.

(** The cascade: heuristic 1 always runs, each later one only while the
    flag is still down. *)
Definition hasNextPageOf (doc : Document) (category : Category) : bool :=
  let h := heuristic1 doc in
  let h := if negb h then heuristic2 doc else h in
  let h := if negb h then heuristic3 doc category else h in
  let h := if negb h then heuristic4 doc else h in
  let h := if negb h then heuristic5 doc else h in
  h.

Definition extractProductsFromPage (doc : Document) (category : Category)
  : M (list Product * bool) :=
  let products := productsOfPage doc category in
  let hasNextPage := hasNextPageOf doc category in
  run emit (EvLogExtract (len products) hasNextPage);
  ret (products, hasNextPage).

(** *** Category walker *)

(** The page ceiling of a walk: 100, or the end page when one is given
    below it. *)
Definition effectiveMaxPages (endPage : Z) : Z :=
  let maxPages := 100 in
  if (0 <? endPage) && (endPage <? maxPages) then endPage else maxPages.

(** The URL of page [pageNum] of a category. *)
Definition pageURLOf (category : Category) (pageNum : Z) : string :=
  let pageURL := CatURL category in
  if 1 <? pageNum then
    if Contains pageURL "?"
    then pageURL +:+ "&PAGEN_2=" +:+ Itoa pageNum
    else pageURL +:+ "?PAGEN_2=" +:+ Itoa pageNum
  else pageURL.

(** One turn of the loop body up to the decision: the products of the page
    and the oracle's verdict.  The status of the response is not read. *)
Definition fetchPage (category : Category) (delayMs pageNum : Z)
  : M (list Product * bool) :=
  let pageURL := pageURLOf category pageNum in
  run emit (EvLogPage pageNum pageURL);
  run sleep_ms delayMs;
  do resp <- doRequestWithRetry pageURL 2 delayMs;
  do utf8Reader <- getUTF8Reader (RespBody resp);
  do doc <- newDocument utf8Reader;
  extractProductsFromPage doc category.

(** The loop [for pageNum <= maxPages { ... pageNum++ }].  [n] bounds the
    turns still to come; [pages_left] below is always enough, so the
    branch for [O] is never taken (lemma [walk_loop_enough]). *)
Fixpoint walk_loop (category : Category) (maxPages delayMs : Z)
         (n : nat) (pageNum : Z) (allProducts : list Product) : M (list Product) :=
  if pageNum <=? maxPages then
    match n with
    | O => ret allProducts
    | S n' =>
        do page <- fetchPage category delayMs pageNum;
        let '(products, hasNextPage) := page in
        let allProducts := allProducts ++ products in
        run emit (EvLogFound (len products) pageNum (len allProducts));
        if negb hasNextPage || (len products =? 0)
        then ret allProducts
        else walk_loop category maxPages delayMs n' (pageNum + 1) allProducts
    end
  else ret allProducts.

(** The number of page indices from [pageNum] to [maxPages]. *)
Definition pages_left (maxPages pageNum : Z) : nat :=
  Z.to_nat (maxPages - pageNum + 1).

(** [getProductsFromCategory(category, semaphore, startPage, endPage,
    delayMs)], one walk on its own: the slot of the semaphore is taken on
    entry and given back on every exit, which a single walk does not
    observe. *)
Definition getProductsFromCategory (category : Category)
           (startPage endPage delayMs : Z) : M (list Product) :=
  let pageNum := startPage in
  let maxPages := effectiveMaxPages endPage in
  walk_loop category maxPages delayMs (pages_left maxPages pageNum) pageNum [].

(** *** Detail page *)

(** [parts[i]] with Go's bounds check. *)
Definition index {A} (parts : list A) (i : Z) : option A :=
  if (0 <=? i) && (i <? len parts) then nth_error parts (Z.to_nat i) else None.

Definition descriptionOf (doc : Document) : string :=
  let description := TrimSpace (Text (docFind doc ".product__description")) in
  let description :=
    if String.eqb description ""
    then TrimSpace (Text (docFind doc ".product-description"))
    else description in
  let description :=
    if String.eqb description ""
    then TrimSpace (Text (docFind doc ".description"))
    else description in
  description.

Definition getProductDetails (url : string) (delayMs : Z) : M Product :=
  run sleep_ms delayMs;
  do resp <- doRequestWithRetry url 2 delayMs;
  if negb (StatusCode resp =? 200) then fail (ErrProductStatus (StatusCode resp))
  else
    do utf8Reader <- getUTF8Reader (RespBody resp);
    do doc <- newDocument utf8Reader;
    let parts := Split url "/" in
    do id <- (if 0 <? len parts
              then match index parts (len parts - 2) with
                   | Some id => ret id
                   | None => panic "index out of range"
                   end
              else ret "");
    ret {| ID := id;
           Name := "";
           URL := "";
           Description := descriptionOf doc;
           Price := "";
           ImageURL := "";
           Category_ := "";
           Features :=
             feature_texts
               (docFind doc ".product__specs tr, .product-features li, .specifications li") |}.

(** *** Catalogue page *)

Definition categoryOfLink (s : Node) : option Category :=
  match Attr [s] "href" with
  | None => None
  | Some href =>
      if Contains href "_" && negb (Contains href ".html") then
        let name := TrimSpace (Text [s]) in
        if negb (String.eqb name "") && (Z.of_nat (String.length name) <? 100)
        then Some {| CatName := name; CatURL := baseURL +:+ href |}
        else None
      else None
  end.

(** The first category of each URL, in order. *)
Fixpoint uniqueByURL (categories : list Category) (seen : gset string) : list Category :=
  match categories with
  | [] => []
  | category :: rest =>
      if decide (CatURL category ∈ seen)
      then uniqueByURL rest seen
      else category :: uniqueByURL rest ({[CatURL category]} ∪ seen)
  end.

Definition getCategories : M (list Category) :=
  do resp <- doRequestWithRetry catalogURL 3 delay;
  if negb (StatusCode resp =? 200) then fail (ErrCatalogStatus (StatusCode resp))
  else
    do utf8Reader <- getUTF8Reader (RespBody resp);
    do doc <- newDocument utf8Reader;
    let categories := omap categoryOfLink (docFind doc "a[href^='/catalog/']") in
    ret (uniqueByURL categories ∅).

(** *** Enrichment merger *)

(** The test of the main loop: the record is passed on as it is. *)
Definition alreadyEnriched (p : Product) : bool :=
  (0 <? len (Features p)) && negb (String.eqb (Description p) "").

(** What the worker does with the fetched details. *)
Definition mergeDetails (prod details : Product) : Product :=
  let prod :=
    if negb (String.eqb (Description details) "")
    then {| ID := ID prod; Name := Name prod; URL := URL prod;
            Description := Description details;
            Price := Price prod; ImageURL := ImageURL prod;
            Category_ := Category_ prod; Features := Features prod |}
    else prod in
  let prod :=
    if 0 <? len (Features details)
    then {| ID := ID prod; Name := Name prod; URL := URL prod;
            Description := Description prod;
            Price := Price prod; ImageURL := ImageURL prod;
            Category_ := Category_ prod; Features := Features details |}
    else prod in
  prod.

(** The worker of one record: the record it sends on [productChan].  An
    error of the detail fetch is logged and counted, and the record is
    sent as it was; a panic of the fetch is not recovered. *)
Definition enrichWorker (prod : Product) (delayMs : Z) : M Product :=
  fun st =>
    match getProductDetails (URL prod) delayMs st with
    | (Ok details, st') => (Ok (mergeDetails prod details), st')
    | (Err _, st') => (Ok prod, st')
    | (Panic msg, st') => (Panic msg, st')
    end.

(** One record of the pass. *)
Definition enrichProduct (prod : Product) (delayMs : Z) : M Product :=
  if alreadyEnriched prod then ret prod else enrichWorker prod delayMs.

(** [enrichProductsWithDetails] under the schedule in which every worker
    runs to its end as soon as it is started: the records in the order
    they reach [productChan], which is what the caller's slice holds
    afterwards.  Other schedules permute the records and interleave the
    requests; what one record becomes depends on its own fetch only. *)
Fixpoint enrichProductsWithDetails (products : list Product) (delayMs : Z)
  : M (list Product) :=
  match products with
  | [] => ret []
  | prod :: rest =>
      do prod' <- enrichProduct prod delayMs;
      do rest' <- enrichProductsWithDetails rest delayMs;
      ret (prod' :: rest')
  end.

End Pipeline.

(** [q] is [p] with, at most, its description and its features replaced by
    non-empty ones. *)
Definition enriches (p q : Product) : Prop :=
  ID q = ID p /\ Name q = Name p /\ URL q = URL p /\ Price q = Price p
  /\ ImageURL q = ImageURL p /\ Category_ q = Category_ p
  /\ (Description q = Description p \/ Description q <> "")
  /\ (Features q = Features p \/ Features q <> []).

(** *** Deduplicator *)

(** The first loop of [removeDuplicateProducts]: [uniqueMap] and
    [duplicateCount] after the records have been read in order. *)
Definition uniqueMapOf (products : list Product) : gmap string Product :=
  fold_left
    (fun uniqueMap product =>
       if String.eqb (ID product) "" then uniqueMap
       else <[ID product := product]> uniqueMap)
    products ∅.

Definition duplicateCountOf (products : list Product) : gmap string Z :=
  fold_left
    (fun duplicateCount product =>
       if String.eqb (ID product) "" then duplicateCount
       else <[ID product := default 0 (duplicateCount !! ID product) + 1]> duplicateCount)
    products ∅.

(** The number of ids seen more than once (printed, not returned). *)
Definition duplicatesFound (products : list Product) : Z :=
  len (filter (fun kc => 1 < kc.2) (map_to_list (duplicateCountOf products))).

(** [removeDuplicateProducts]: the values of [uniqueMap]. *)
Definition removeDuplicateProducts (products : list Product) : list Product :=
  (map_to_list (uniqueMapOf products)).*2.

(** Go ranges over a map in an unspecified order: a run may return any
    arrangement of those values. *)
Definition removeDuplicateProducts_returns (products out : list Product) : Prop :=
  out ≡ₚ removeDuplicateProducts products.

(** ** The history of a walk

    The walker writes a line before it fetches a page ([EvLogPage]) and one
    after it has extracted it ([EvLogFound]); all other events come from
    the fetcher and the extractor below it. *)

Definition low (e : event) : bool :=
  match e with
  | EvLogPage _ _ | EvLogFound _ _ _ => false
  | _ => true
  end.

Definition quiet (t : list event) : Prop := Forall (fun e => low e = true) t.

(** The histories of a walk that stands before page [p], the states of the
    specification's machine: the loop is over ([walk_done]); the fetch or
    the parse of page [p] fails ([walk_abort]); page [p] is the last one
    ([walk_stop]); page [p] yields records and the walk goes on to page
    [p + 1] ([walk_next]). *)
Inductive walk_trace (maxPages : Z) : Z -> list event -> Prop :=
| walk_done p :
    walk_trace maxPages p []
| walk_abort p url t :
    p <= maxPages -> quiet t ->
    walk_trace maxPages p (EvLogPage p url :: t)
| walk_stop p url t found total :
    p <= maxPages -> quiet t ->
    walk_trace maxPages p (EvLogPage p url :: t ++ [EvLogFound found p total])
| walk_next p url t found total t' :
    p <= maxPages -> quiet t -> found <> 0 ->
    walk_trace maxPages (p + 1) t' ->
    walk_trace maxPages p (EvLogPage p url :: t ++ EvLogFound found p total :: t').

(** What the extractor reported page by page: the number of records and the
    oracle's verdict. *)
Definition extracts (t : list event) : list (Z * bool) :=
  omap (fun e => match e with
                 | EvLogExtract found hasNextPage => Some (found, hasNextPage)
                 | _ => None
                 end) t.

(** The bound on the page fetches of a walk that the specification gives. *)
Definition fetch_bound (startPage endPage : Z) : Z :=
  if 0 <? endPage then Z.min 100 (endPage - startPage + 1) else 100.

(** A computation that only adds events from below the walker. *)
Definition adds_quiet {A} (m : M A) : Prop :=
  forall st, exists t, trace (m st).2 = trace st ++ t /\ quiet t.

(** A computation that never panics. *)
Definition no_panic {A} (m : M A) : Prop :=
  forall st msg, (m st).1 <> Panic msg.


(** The last record of the input that carries the id. *)
Definition lastWithID (id : string) (products : list Product) : option Product :=
  last (filter (fun q => ID q = id) products).

(** Whether a link carries a page index at all. *)
Definition is_page_link (s : Node) : bool :=
  match Attr [s] "href" with
  | Some href => Contains href "PAGEN_2="
  | None => false
  end.

(** The events of the fetcher: requests, sleeps and its retry line. *)
Definition wire (e : event) : bool :=
  match e with
  | EvGet _ | EvSleep _ | EvLogRetry _ _ _ => true
  | _ => false
  end.

Definition wires (t : list event) : Prop := Forall (fun e => wire e = true) t.

(** The [k] integers from [p] on. *)
Fixpoint count_from (p : Z) (k : nat) : list Z :=
  match k with
  | O => []
  | S k' => p :: count_from (p + 1) k'
  end.

(** The pages of a history: the index and the URL of each walker's line. *)
Definition pages_of (t : list event) : list (Z * string) :=
  omap (fun e => match e with
                 | EvLogPage pageNum pageURL => Some (pageNum, pageURL)
                 | _ => None
                 end) t.

(** What a page fetch writes first: the walker's line, the delay, the first
    request, and whatever the fetcher adds ([w]). *)
Definition page_prefix (category : Category) (d p : Z) (w : list event) : list event :=
  EvLogPage p (pageURLOf category p)
  :: EvSleep (wrap64 (d * millisecond))
  :: EvGet (pageURLOf category p)
  :: w.

(** What the history of a page fetch ends with: the extractor's line when
    the page was extracted, nothing otherwise. *)
Definition page_end (r : result (list Product * bool)) : list event :=
  match r with
  | Ok (products, hasNextPage) => [EvLogExtract (len products) hasNextPage]
  | _ => []
  end.

(** The histories of a whole walk that stands before page [p], event by
    event: the ceiling is passed ([run_done]); the page cannot be fetched,
    read or parsed ([run_abort]); the page is extracted and is the last
    one, the oracle saying no or the page being empty ([run_stop]); the
    page is extracted and the walk goes on ([run_next]). *)
Inductive walk_run (category : Category) (maxPages d : Z) : Z -> list event -> Prop :=
| run_done p :
    maxPages < p ->
    walk_run category maxPages d p []
| run_abort p w :
    p <= maxPages -> wires w -> (attempts w <= 1)%nat ->
    walk_run category maxPages d p (page_prefix category d p w)
| run_stop p w found hasNextPage total :
    p <= maxPages -> wires w -> (attempts w <= 1)%nat ->
    hasNextPage = false \/ found = 0 ->
    walk_run category maxPages d p
      (page_prefix category d p w
       ++ [EvLogExtract found hasNextPage; EvLogFound found p total])
| run_next p w found total rest :
    p <= maxPages -> wires w -> (attempts w <= 1)%nat ->
    found <> 0 ->
    walk_run category maxPages d (p + 1) rest ->
    walk_run category maxPages d p
      (page_prefix category d p w
       ++ EvLogExtract found true :: EvLogFound found p total :: rest).

(** The records that the extractor reported over a history. *)
Definition total_found (t : list event) : Z :=
  foldr Z.add 0 (map fst (extracts t)).

(** [P] holds of every event of a history and of what follows it. *)
Fixpoint each_followed (P : event -> list event -> Prop) (t : list event) : Prop :=
  match t with
  | [] => True
  | e :: rest => P e rest /\ each_followed P rest
  end.

(** A walker's line is followed by the delay and by the request of the
    page's URL. *)
Definition delay_first (category : Category) (d : Z) (e : event) (rest : list event) : Prop :=
  match e with
  | EvLogPage q url =>
      url = pageURLOf category q
      /\ exists t3, rest = EvSleep (wrap64 (d * millisecond)) :: EvGet url :: t3
  | _ => True
  end.

(** An extraction that reports no records, or a "no" of the oracle, is
    followed by the walker's line for that page and by nothing else. *)
Definition verdict_last (e : event) (rest : list event) : Prop :=
  match e with
  | EvLogExtract found hasNextPage =>
      hasNextPage = false \/ found = 0 ->
      exists q total, rest = [EvLogFound found q total]
  | _ => True
  end.

(** The requests of a history up to the next walker's line. *)
Fixpoint requests_until_page (t : list event) : nat :=
  match t with
  | [] => O
  | EvLogPage _ _ :: _ => O
  | EvGet _ :: rest => S (requests_until_page rest)
  | _ :: rest => requests_until_page rest
  end.

(** The requests of a history page by page: for every walker's line, the
    number of requests between that line and the next one. *)
Fixpoint requests_per_page (t : list event) : list nat :=
  match t with
  | [] => []
  | EvLogPage _ _ :: rest => requests_until_page rest :: requests_per_page rest
  | _ :: rest => requests_per_page rest
  end.


(** ** Fixtures: a small site to run the program on *)

Module Fixture.

(** A record with the given id and name. *)
Definition item (id name : string) : Product :=
  mkProduct id name "" "" "" "" "" [].

(** Two encodings.  The decoder of the first passes ASCII on and puts
    U+FFFD in place of every other byte, as a UTF-8 decoder does with a
    byte that cannot start a sequence; the second is left abstract and
    passes the bytes on. *)
Inductive Enc : Type := EncUTF8 | EncWindows1251.

Fixpoint decode_lossy (b : string) : string :=
  match b with
  | EmptyString => EmptyString
  | String c b' =>
      if (Z.of_N (N_of_ascii c) <? 128)
      then String c (decode_lossy b')
      else marker_bytes +:+ decode_lossy b'
  end.

Definition decode (e : Enc) (b : string) : string :=
  match e with
  | EncUTF8 => decode_lossy b
  | EncWindows1251 => b
  end.

Definition sniff (b : string) : Enc := EncUTF8.

(** A product card with a name link. *)
Definition card (id : string) : Node :=
  mkNode [("data-product-id", id)] ""
    (fun selector =>
       if String.eqb selector ".productCard__name"
       then [leaf [("href", "/catalog/p/" +:+ id +:+ "/")] id]
       else []).

(** A page with the given cards and links. *)
Definition page (cards : list Node) (links : list string) : Document :=
  mkDocument
    (mkNode [] ""
       (fun selector =>
          if String.eqb selector "[data-product-id]" then cards
          else if String.eqb selector "a"
               then map (fun href => leaf [("href", href)] "") links
               else []))
    (Some "").

(** A detail page with a description and a list of features. *)
Definition detailPage (description : string) (features : list string) : Document :=
  mkDocument
    (mkNode [] ""
       (fun selector =>
          if String.eqb selector ".product__description"
          then [leaf [] description]
          else if String.eqb selector
                    ".product__specs tr, .product-features li, .specifications li"
               then map (leaf []) features
               else []))
    (Some "").

Definition ten (prefix : string) : list Node :=
  map (fun k => card (prefix +:+ k)) ["0"; "1"; "2"; "3"; "4"; "5"; "6"; "7"; "8"; "9"].

(** The parser on the texts that the fixture sites serve. *)
Definition parse (text : string) : Document + string :=
  if String.eqb text "first" then inl (page (ten "a") ["?PAGEN_2=2"])
  else if String.eqb text "second" then inl (page (ten "b") ["?PAGEN_2=3"])
  else if String.eqb text "void" then inl (page [] ["?PAGEN_2=4"])
  else if String.eqb text "one" then inl (page [card "x"] ["?PAGEN_2=2"])
  else if String.eqb text "last" then inl (page [card "y"] ["?PAGEN_2=1"])
  else if String.eqb text "gone" then inl (page [card "z"] [])
  else if String.eqb text "detail" then inl (detailPage "X" ["3 kW"])
  else if String.eqb text "bare" then inl (detailPage "" [])
  else if String.eqb text "broken" then inr "unexpected EOF"
  else inl (page [] []).

Definition cat : Category := mkCategory "Stanki" "https://www.stanki.ru/catalog/x_y/".

Definition ok (text : string) : GetResult := GetOk (mkResponse 200 (BodyBytes text)).

(** Three pages: ten records, ten records, none; every page links on. *)
Definition site3 (n : nat) (url : string) : GetResult :=
  if String.eqb url "https://www.stanki.ru/catalog/x_y/" then ok "first"
  else if String.eqb url "https://www.stanki.ru/catalog/x_y/?PAGEN_2=2" then ok "second"
  else if String.eqb url "https://www.stanki.ru/catalog/x_y/?PAGEN_2=3" then ok "void"
  else GetErr "no such host".

(** Every page holds one record and links on. *)
Definition endless (n : nat) (url : string) : GetResult := ok "one".

(** Two pages; the second, the last one, links back to the first only. *)
Definition site2 (n : nat) (url : string) : GetResult :=
  if String.eqb url "https://www.stanki.ru/catalog/x_y/" then ok "one"
  else if String.eqb url "https://www.stanki.ru/catalog/x_y/?PAGEN_2=2" then ok "last"
  else ok "".

(** Every request is answered 404, with a page that shows one record and
    no pagination. *)
Definition missing (n : nat) (url : string) : GetResult :=
  GetOk (mkResponse 404 (BodyBytes "gone")).

(** Every detail page has the description ["X"] and one feature. *)
Definition shop (n : nat) (url : string) : GetResult := ok "detail".

(** Every detail page is empty of both. *)
Definition bareShop (n : nat) (url : string) : GetResult := ok "bare".

(** ["Привет"] in Windows-1251 behind a declaration of UTF-8: six bytes that
    cannot start a UTF-8 sequence where they stand. *)
Definition mislabelled : string :=
  "<meta charset=utf-8>"
  +:+ String (ascii_of_nat 207) (String (ascii_of_nat 240) (String (ascii_of_nat 232)
       (String (ascii_of_nat 226) (String (ascii_of_nat 229) (String (ascii_of_nat 242)
       EmptyString))))).

(** No request gets through. *)
Definition down (n : nat) (url : string) : GetResult := GetErr "connection refused".


(** The program on the fixture libraries. *)
Definition walk (net : nat -> string -> GetResult) (startPage endPage : Z) :=
  getProductsFromCategory net Enc sniff EncWindows1251 decode parse id id
    cat startPage endPage 0 init.

Definition details (net : nat -> string -> GetResult) (url : string) :=
  getProductDetails net Enc sniff EncWindows1251 decode parse id url 0 init.

Definition enrich (net : nat -> string -> GetResult) (prod : Product) :=
  enrichProduct net Enc sniff EncWindows1251 decode parse id prod 0 init.

Definition catalog (net : nat -> string -> GetResult) :=
  getCategories net Enc sniff EncWindows1251 decode parse id init.

End Fixture.

(** ** Output: the CSV file

    The file and the CSV writer are the operating system's and a library's.
    A run is the sequence of the calls made on them; which of them return
    an error is a parameter. *)

Inductive sink_op : Type :=
| OpCreate (filename : string)                    (* os.Create(filename) *)
| OpWrite (b : string)                            (* file.Write(b) *)
| OpCsvWrite (record : list string)               (* writer.Write(record) *)
| OpCsvWriteAll (records : list (list string))    (* writer.WriteAll(records) *)
| OpCsvFlush                                      (* the deferred writer.Flush() *)
| OpClose.                                        (* the deferred file.Close() *)

(** [strings.Join(elems, sep)]. *)
Definition Join (elems : list string) (sep : string) : string := String.concat sep elems.

(** [[]byte{0xEF, 0xBB, 0xBF}]. *)
Definition bom : string :=
  String (ascii_of_nat 239) (String (ascii_of_nat 187) (String (ascii_of_nat 191) EmptyString)).

Definition headers : list string :=
  ["ID"; "Название"; "URL"; "Описание"; "Цена"; "URL изображения"; "Категория";
   "Характеристики"].

Definition batchSize : Z := 1000.

(** The row of a record. *)
Definition recordOf (product : Product) : list string :=
  let featuresStr := Join (Features product) "|" in
  [ID product; Name product; URL product; Description product; Price product;
   ImageURL product; Category_ product; featuresStr].

(** The rows handed to the writer over a run, in order. *)
Definition rows_of (ops : list sink_op) : list (list string) :=
  flat_map (fun o => match o with
                     | OpCsvWrite record => [record]
                     | OpCsvWriteAll records => records
                     | _ => []
                     end) ops.

(** The batches handed to [WriteAll] over a run. *)
Definition batches_of (ops : list sink_op) : list (list (list string)) :=
  omap (fun o => match o with OpCsvWriteAll records => Some records | _ => None end) ops.

(** A call of [WriteAll] with a full batch. *)
Definition full_batch (o : sink_op) : Prop :=
  exists records, o = OpCsvWriteAll records /\ len records = batchSize.

(** A run that got as far as the header: what lies between the opening
    and the closing calls. *)
Definition framed (filename : string) (mid : list sink_op) : list sink_op :=
  [OpCreate filename; OpWrite bom; OpCsvWrite headers] ++ mid ++ [OpCsvFlush; OpClose].

Section Output.

(** The error, if any, of the [n]-th call of the run. *)
Variable fails : nat -> option string.

Definition call (o : sink_op) (ops : list sink_op) : option string * list sink_op :=
  (fails (length ops), ops ++ [o]).

(** The loop over the records: the rows not yet written, or the error of a
    [WriteAll]. *)
Fixpoint csv_loop (products : list Product) (records : list (list string))
         (ops : list sink_op) : (list (list string) + string) * list sink_op :=
  match products with
  | [] => (inl records, ops)
  | product :: rest =>
      let records := records ++ [recordOf product] in
      if batchSize <=? len records then
        match call (OpCsvWriteAll records) ops with
        | (Some err, ops) => (inr err, ops)
        | (None, ops) => csv_loop rest [] ops
        end
      else csv_loop rest records ops
  end.

(** [saveToCSV(products, filename)]: the error returned, [None] for [nil].
    The deferred calls run on every return after their [defer], the flush
    before the close; their errors are dropped. *)
Definition saveToCSV (products : list Product) (filename : string)
           (ops : list sink_op) : option string * list sink_op :=
  match call (OpCreate filename) ops with
  | (Some err, ops) => (Some err, ops)
  | (None, ops) =>
      let closing (r : option string) ops := (r, (call OpClose ops).2) in
      match call (OpWrite bom) ops with
      | (Some err, ops) => closing (Some err) ops
      | (None, ops) =>
          let flushing (r : option string) ops := closing r (call OpCsvFlush ops).2 in
          match call (OpCsvWrite headers) ops with
          | (Some err, ops) => flushing (Some err) ops
          | (None, ops) =>
              match csv_loop products [] ops with
              | (inr err, ops) => flushing (Some err) ops
              | (inl records, ops) =>
                  if 0 <? len records then
                    match call (OpCsvWriteAll records) ops with
                    | (Some err, ops) => flushing (Some err) ops
                    | (None, ops) => flushing None ops
                    end
                  else flushing None ops
              end
          end
      end
  end.

End Output.

(** ** Fixtures: a catalogue page *)

Module Shopfront.

Definition link (href text : string) : Node := leaf [("href", href)] text.

(** Five catalogue links: a category, a page that is none, the category
    again, another category, and a link without an underscore. *)
Definition cataloguePage : Document :=
  mkDocument
    (mkNode [] ""
       (fun selector =>
          if String.eqb selector "a[href^='/catalog/']"
          then [link "/catalog/lathes_cnc/" "Lathes";
                link "/catalog/about_us.html" "About";
                link "/catalog/lathes_cnc/" "Lathes again";
                link "/catalog/mills_x/" "Mills";
                link "/catalog/plain/" "Plain"]
          else []))
    (Some "").

Definition parse (text : string) : Document + string := inl cataloguePage.

Definition up (n : nat) (url : string) : GetResult := Fixture.ok "catalogue".

Definition unavailable (n : nat) (url : string) : GetResult :=
  GetOk (mkResponse 503 (BodyBytes "")).

Definition catalogue (net : nat -> string -> GetResult) :=
  getCategories net Fixture.Enc Fixture.sniff Fixture.EncWindows1251 Fixture.decode
    parse id init.

End Shopfront.

(** * Properties *)

(** ** Go's string functions *)

Module GoStringFacts.

Example Split_url : Split "https://www.stanki.ru/catalog/x/" "/" =
                    ["https:"; ""; "www.stanki.ru"; "catalog"; "x"; ""].
Proof. reflexivity. Qed.

Example Split_no_sep : Split "abc" "/" = ["abc"].
Proof. reflexivity. Qed.

Example Split_empty : Split "" "/" = [""].
Proof. reflexivity. Qed.

Example Split_long_sep : Split "/c/?PAGEN_2=3&x=1" "PAGEN_2=" = ["/c/?"; "3&x=1"].
Proof. reflexivity. Qed.

Example Split_overlap : Split "aaaa" "aa" = [""; ""; ""].
Proof. reflexivity. Qed.

Example Atoi_ok : Atoi "12" = Some 12 /\ Atoi "-7" = Some (-7) /\ Atoi "+3" = Some 3.
Proof. repeat split; reflexivity. Qed.

Example Atoi_bad : Atoi "" = None /\ Atoi "1a" = None /\ Atoi "-" = None
                   /\ Atoi "9223372036854775808" = None.
Proof. repeat split; reflexivity. Qed.

Example Itoa_ok : Itoa 12 = "12" /\ Itoa 0 = "0" /\ Itoa (-4) = "-4".
Proof. repeat split; reflexivity. Qed.

Lemma prefix_slash c s :
  String.prefix "/" (String c s) = Ascii.eqb c "/".
Proof.
  change (String.prefix "/" (String c s))
    with (match ascii_dec "/" c with
          | left _ => String.prefix "" s
          | right _ => false
          end).
  destruct (ascii_dec "/" c) as [<- | Hne].
  - destruct s; reflexivity.
  - symmetry. apply (proj2 (Ascii.eqb_neq c "/")). congruence.
Qed.

(** Splitting at ["/"] gives one segment more than there are slashes. *)
Lemma split_from_slash_length s :
  forall cur, length (split_from "/" s O cur) = S (count_byte "/" s).
Proof.
  induction s as [|c s IH]; intros cur; [reflexivity|].
  cbn [split_from count_byte]. rewrite prefix_slash.
  destruct (Ascii.eqb c "/"); cbn [length String.length Nat.pred]; rewrite IH; reflexivity.
Qed.

Lemma Split_slash_length s : length (Split s "/") = S (count_byte "/" s).
Proof. apply split_from_slash_length. Qed.

Lemma Contains_slash s : Contains s "/" = negb (Nat.eqb (count_byte "/" s) O).
Proof.
  induction s as [|c s IH]; [reflexivity|].
  cbn [Contains count_byte]. rewrite prefix_slash.
  destruct (Ascii.eqb c "/"); [reflexivity | exact IH].
Qed.

(** [strings.Split] never returns an empty slice. *)
Lemma split_from_nonempty sep s :
  forall skip cur, split_from sep s skip cur <> [].
Proof.
  induction s as [|c s IH]; intros skip cur; cbn [split_from]; [discriminate|].
  destruct skip; [|apply IH].
  destruct (String.prefix sep (String c s)); [discriminate | apply IH].
Qed.

End GoStringFacts.

(** ** Fetcher *)

Section FetcherFacts.

Variable net : nat -> string -> GetResult.

Lemma wrap64_small z : min_int <= z <= max_int -> wrap64 z = z.
Proof.
  unfold wrap64, min_int, max_int. intros H.
  rewrite Z.mod_small; lia.
Qed.

Lemma backoff_linear d k :
  - max_delay <= d <= max_delay -> 1 <= k <= 3 ->
  backoff d k = k * d * millisecond.
Proof.
  unfold backoff, max_delay, millisecond. intros Hd Hk.
  rewrite (wrap64_small (d * k)) by (unfold min_int, max_int; nia).
  rewrite wrap64_small by (unfold min_int, max_int; nia).
  ring.
Qed.

(** One failed attempt: the request, the log line, the sleep, and the loop
    goes on with the error kept. *)
Lemma retry_loop_failed url maxRetries d n i err msg st :
  net (gets st) url = GetErr msg ->
  retry_loop net url maxRetries d (S n) i err st =
  retry_loop net url maxRetries d n (i + 1) (Some msg)
    (mkState (trace st ++ [EvGet url; EvLogRetry url (i + 1) maxRetries;
                           EvSleep (backoff d (i + 1))])
             (S (gets st))).
Proof.
  intros Hnet. cbn [retry_loop]. unfold bind, clientGet, emit. cbn.
  rewrite Hnet. cbn. rewrite <- !app_assoc. reflexivity.
Qed.

(** A successful attempt ends the loop with the response, whatever its
    status. *)
Lemma retry_loop_answered url maxRetries d n i err resp st :
  net (gets st) url = GetOk resp ->
  retry_loop net url maxRetries d (S n) i err st =
  (Ok resp, mkState (trace st ++ [EvGet url]) (S (gets st))).
Proof.
  intros Hnet. cbn [retry_loop]. unfold bind, clientGet. cbn.
  rewrite Hnet. reflexivity.
Qed.

(** C7.  With [maxRetries = 3] and three failed attempts the fetcher makes
    exactly three requests, sleeps [d], [2d] and [3d] milliseconds, one
    after each failure and in that order, and returns the
    retries-exhausted error carrying the count and the last cause. *)
Theorem C7_three_failures_backoff url d st m1 m2 m3 :
  - max_delay <= d <= max_delay ->
  net (gets st) url = GetErr m1 ->
  net (S (gets st)) url = GetErr m2 ->
  net (S (S (gets st))) url = GetErr m3 ->
  exists t,
    doRequestWithRetry net url 3 d st =
      (Err (ErrRetries url 3 (Some m3)),
       mkState (trace st ++ t) (S (S (S (gets st)))))
    /\ t = [EvGet url; EvLogRetry url 1 3; EvSleep (1 * d * millisecond);
            EvGet url; EvLogRetry url 2 3; EvSleep (2 * d * millisecond);
            EvGet url; EvLogRetry url 3 3; EvSleep (3 * d * millisecond)]
    /\ attempts t = 3%nat
    /\ sleeps t = [1 * d * millisecond; 2 * d * millisecond; 3 * d * millisecond].
Proof.
  intros Hd H1 H2 H3. eexists. split; [| split; [reflexivity | split; reflexivity]].
  unfold doRequestWithRetry. change (Z.to_nat 3) with 3%nat.
  rewrite (retry_loop_failed _ _ _ _ _ _ m1) by exact H1.
  rewrite (retry_loop_failed _ _ _ _ _ _ m2) by exact H2.
  rewrite (retry_loop_failed _ _ _ _ _ _ m3) by exact H3.
  cbn [retry_loop fail trace gets]. rewrite <- !app_assoc. cbn [app].
  change (0 + 1) with 1. change (1 + 1) with 2. change (2 + 1) with 3.
  rewrite !backoff_linear by lia. reflexivity.
Qed.


End FetcherFacts.

(** A site that is down, asked three times with the default delay. *)
Lemma C7_three_failures_backoff_witness :
  exists t,
    doRequestWithRetry Fixture.down "https://www.stanki.ru/catalog/" 3 500 init =
      (Err (ErrRetries "https://www.stanki.ru/catalog/" 3 (Some "connection refused")),
       mkState (trace init ++ t) 3)
    /\ t = [EvGet "https://www.stanki.ru/catalog/";
            EvLogRetry "https://www.stanki.ru/catalog/" 1 3; EvSleep (1 * 500 * millisecond);
            EvGet "https://www.stanki.ru/catalog/";
            EvLogRetry "https://www.stanki.ru/catalog/" 2 3; EvSleep (2 * 500 * millisecond);
            EvGet "https://www.stanki.ru/catalog/";
            EvLogRetry "https://www.stanki.ru/catalog/" 3 3; EvSleep (3 * 500 * millisecond)]
    /\ attempts t = 3%nat
    /\ sleeps t = [1 * 500 * millisecond; 2 * 500 * millisecond; 3 * 500 * millisecond].
Proof.
  apply (C7_three_failures_backoff Fixture.down "https://www.stanki.ru/catalog/" 500 init
           "connection refused" "connection refused" "connection refused").
  - unfold max_delay. lia.
  - reflexivity.
  - reflexivity.
  - reflexivity.
Defined.

(** ** Category walker *)

Section WalkerFacts.

Variable net : nat -> string -> GetResult.
Variable Encoding : Type.
Variable DetermineEncoding : string -> Encoding.
Variable Windows1251 : Encoding.
Variable decode : Encoding -> string -> string.
Variable NewDocumentFromReader : string -> Document + string.
Variable TrimSpace : string -> string.
Variable ToLower : string -> string.

Abbreviation fetchPage' :=
  (fetchPage net Encoding DetermineEncoding Windows1251 decode
     NewDocumentFromReader TrimSpace ToLower).
Abbreviation walk_loop' :=
  (walk_loop net Encoding DetermineEncoding Windows1251 decode
     NewDocumentFromReader TrimSpace ToLower).
Abbreviation getProductsFromCategory' :=
  (getProductsFromCategory net Encoding DetermineEncoding Windows1251 decode
     NewDocumentFromReader TrimSpace ToLower).

Lemma quiet_app t1 t2 : quiet t1 -> quiet t2 -> quiet (t1 ++ t2).
Proof. unfold quiet. intros. apply Forall_app. auto. Qed.

Lemma adds_quiet_ret {A} (a : A) : adds_quiet (ret a).
Proof. intros st. exists []. cbn. rewrite app_nil_r. split; [reflexivity | constructor]. Qed.

Lemma adds_quiet_fail {A} e : adds_quiet (@fail A e).
Proof. intros st. exists []. cbn. rewrite app_nil_r. split; [reflexivity | constructor]. Qed.

Lemma adds_quiet_panic {A} msg : adds_quiet (@panic A msg).
Proof. intros st. exists []. cbn. rewrite app_nil_r. split; [reflexivity | constructor]. Qed.

Lemma adds_quiet_emit e : low e = true -> adds_quiet (emit e).
Proof.
  intros He st. exists [e]. cbn. split; [reflexivity|].
  constructor; [exact He | constructor].
Qed.

Lemma adds_quiet_bind {A B} (m : M A) (k : A -> M B) :
  adds_quiet m -> (forall a, adds_quiet (k a)) -> adds_quiet (bind m k).
Proof.
  intros Hm Hk st. unfold bind. destruct (Hm st) as (t1 & E1 & Q1).
  destruct (m st) as [[a | e | msg] st1]; cbn in E1.
  - destruct (Hk a st1) as (t2 & E2 & Q2). exists (t1 ++ t2).
    rewrite E2, E1, app_assoc. split; [reflexivity | apply quiet_app; assumption].
  - exists t1. cbn. auto.
  - exists t1. cbn. auto.
Qed.

Lemma adds_quiet_clientGet url : adds_quiet (clientGet net url).
Proof.
  intros st. exists [EvGet url]. cbn. split; [reflexivity|].
  constructor; [reflexivity | constructor].
Qed.

Lemma adds_quiet_retry_loop url maxRetries d n :
  forall i err, adds_quiet (retry_loop net url maxRetries d n i err).
Proof.
  induction n as [|n IH]; intros i err; cbn [retry_loop].
  - apply adds_quiet_fail.
  - apply adds_quiet_bind; [apply adds_quiet_clientGet|].
    intros [resp | msg]; [apply adds_quiet_ret|].
    apply adds_quiet_bind; [apply adds_quiet_emit; reflexivity|]. intros _.
    apply adds_quiet_bind; [apply adds_quiet_emit; reflexivity|]. intros _.
    apply IH.
Qed.

Lemma adds_quiet_getUTF8Reader r :
  adds_quiet (getUTF8Reader Encoding DetermineEncoding Windows1251 decode r).
Proof. destruct r; [apply adds_quiet_ret | apply adds_quiet_fail]. Qed.

Lemma adds_quiet_newDocument text : adds_quiet (newDocument NewDocumentFromReader text).
Proof.
  unfold newDocument. destruct (NewDocumentFromReader text);
    [apply adds_quiet_ret | apply adds_quiet_fail].
Qed.

Lemma adds_quiet_extract doc category :
  adds_quiet (extractProductsFromPage TrimSpace ToLower doc category).
Proof.
  unfold extractProductsFromPage.
  apply adds_quiet_bind; [apply adds_quiet_emit; reflexivity|]. intros _.
  apply adds_quiet_ret.
Qed.

(** A page fetch writes the walker's line and then only events from below. *)
Lemma fetchPage_trace category d p st :
  exists t,
    trace (fetchPage' category d p st).2 =
      trace st ++ EvLogPage p (pageURLOf category p) :: t
    /\ quiet t.
Proof.
  unfold fetchPage.
  set (rest := bind (sleep_ms d) _).
  assert (Hrest : adds_quiet rest).
  { unfold rest. apply adds_quiet_bind; [apply adds_quiet_emit; reflexivity|]. intros _.
    apply adds_quiet_bind; [apply adds_quiet_retry_loop|]. intros resp.
    apply adds_quiet_bind; [apply adds_quiet_getUTF8Reader|]. intros text.
    apply adds_quiet_bind; [apply adds_quiet_newDocument|]. intros doc.
    apply adds_quiet_extract. }
  unfold bind at 1. cbn [emit].
  destruct (Hrest (mkState (trace st ++ [EvLogPage p (pageURLOf category p)]) (gets st)))
    as (t & E & Q).
  exists t. rewrite E. cbn [trace]. rewrite <- app_assoc. auto.
Qed.

(** A page request that is answered is a page, whatever the status of the
    answer: what follows reads the body only. *)
Lemma fetchPage_answered category d p st resp :
  net (gets st) (pageURLOf category p) = GetOk resp ->
  fetchPage' category d p st =
    (do utf8Reader <- getUTF8Reader Encoding DetermineEncoding Windows1251 decode
                        (RespBody resp);
     do doc <- newDocument NewDocumentFromReader utf8Reader;
     extractProductsFromPage TrimSpace ToLower doc category)
      (mkState (trace st ++ [EvLogPage p (pageURLOf category p);
                             EvSleep (wrap64 (d * millisecond));
                             EvGet (pageURLOf category p)])
               (S (gets st))).
Proof.
  intros Hnet. unfold fetchPage, sleep_ms, doRequestWithRetry.
  change (Z.to_nat 2) with 2%nat.
  unfold bind at 1. cbn [emit]. unfold bind at 1. cbn [emit trace gets].
  unfold bind at 1.
  rewrite (retry_loop_answered net _ 2 d 1 0 None resp) by exact Hnet.
  cbn [trace gets]. rewrite <- !app_assoc. reflexivity.
Qed.

(** Every run of the loop, from any page and any state, writes a history
    of the walker's machine. *)
Lemma walk_loop_trace category maxPages d n :
  forall p acc st,
  exists t,
    trace (walk_loop' category maxPages d n p acc st).2 = trace st ++ t
    /\ walk_trace maxPages p t.
Proof.
  induction n as [|n IH]; intros p acc st.
  - exists []. cbn [walk_loop]. destruct (p <=? maxPages); cbn;
      rewrite app_nil_r; split; try reflexivity; constructor.
  - cbn [walk_loop]. destruct (Z.leb_spec p maxPages) as [Hle | Hgt].
    2:{ exists []. cbn. rewrite app_nil_r. split; [reflexivity | constructor]. }
    unfold bind at 1.
    destruct (fetchPage_trace category d p st) as (t & E & Q).
    destruct (fetchPage' category d p st) as [[[products hasNextPage] | e | msg] st1];
      cbn [snd] in E.
    + unfold bind, emit. cbn [trace gets].
      destruct (negb hasNextPage || (len products =? 0)) eqn:Hstop.
      * eexists. cbn [ret snd trace]. rewrite E, <- app_assoc. cbn [app].
        split; [reflexivity|]. apply walk_stop; assumption.
      * destruct (IH (p + 1) (acc ++ products)
                    (mkState (trace st1 ++ [EvLogFound (len products) p
                                              (len (acc ++ products))])
                             (gets st1))) as (t' & E' & W').
        eexists. rewrite E'. cbn [trace]. rewrite E, <- !app_assoc. cbn [app].
        split; [reflexivity|]. apply walk_next; try assumption.
        apply orb_false_iff in Hstop. destruct Hstop as [_ Hlen].
        apply Z.eqb_neq in Hlen. exact Hlen.
    + exists (EvLogPage p (pageURLOf category p) :: t). cbn [snd].
      split; [exact E|]. apply walk_abort; assumption.
    + exists (EvLogPage p (pageURLOf category p) :: t). cbn [snd].
      split; [exact E|]. apply walk_abort; assumption.
Qed.

Lemma page_fetches_app t1 t2 :
  page_fetches (t1 ++ t2) = (page_fetches t1 + page_fetches t2)%nat.
Proof. unfold page_fetches. rewrite filter_app, length_app. reflexivity. Qed.

Lemma page_fetches_quiet t : quiet t -> page_fetches t = O.
Proof.
  unfold page_fetches. induction 1 as [|e t He _ IH]; [reflexivity|].
  rewrite filter_cons. destruct e; cbn in *; try discriminate; exact IH.
Qed.

Lemma page_fetches_found found p total t :
  page_fetches (EvLogFound found p total :: t) = page_fetches t.
Proof. reflexivity. Qed.

Lemma page_fetches_page p url t :
  page_fetches (EvLogPage p url :: t) = S (page_fetches t).
Proof. reflexivity. Qed.

(** A walk that stands before page [p] fetches no more pages than there are
    indices from [p] to the ceiling. *)
Lemma walk_trace_pages maxPages p t :
  walk_trace maxPages p t -> (page_fetches t <= pages_left maxPages p)%nat.
Proof.
  unfold pages_left. induction 1 as [p | p url t Hle Q | p url t found total Hle Q
                                     | p url t found total t' Hle Q Hne W IH].
  - change (page_fetches []) with O. lia.
  - rewrite page_fetches_page, (page_fetches_quiet t Q). lia.
  - rewrite page_fetches_page, page_fetches_app, (page_fetches_quiet t Q),
      page_fetches_found. change (page_fetches []) with O. lia.
  - rewrite page_fetches_page, page_fetches_app, (page_fetches_quiet t Q),
      page_fetches_found. lia.
Qed.

(** The page range of a walk against the bound of the specification. *)
Lemma pages_left_bound s e :
  1 <= s ->
  Z.of_nat (pages_left (effectiveMaxPages e) s) <= Z.max 0 (fetch_bound s e).
Proof.
  unfold pages_left, effectiveMaxPages, fetch_bound. intros Hs.
  destruct (Z.ltb_spec 0 e), (Z.ltb_spec e 100); cbn [andb]; lia.
Qed.

(** The general bound, for any start page: the indices from the start page
    to the ceiling. *)
Lemma getProductsFromCategory_pages category s e d st :
  exists t,
    trace (getProductsFromCategory' category s e d st).2 = trace st ++ t
    /\ (page_fetches t <= pages_left (effectiveMaxPages e) s)%nat.
Proof.
  unfold getProductsFromCategory.
  destruct (walk_loop_trace category (effectiveMaxPages e) d
              (pages_left (effectiveMaxPages e) s) s [] st) as (t & E & W).
  exists t. split; [exact E|]. apply walk_trace_pages. exact W.
Qed.

(** A walk that starts at page [s >= 1] fetches at most
    [min(100, e - s + 1)] pages when the end page [e] is positive, an empty
    range counting as none, and at most 100 otherwise, whatever the site
    answers and the oracle says. *)
Theorem C1_page_fetches_bounded category s e d st :
  1 <= s ->
  exists t,
    trace (getProductsFromCategory' category s e d st).2 = trace st ++ t
    /\ Z.of_nat (page_fetches t) <= Z.max 0 (fetch_bound s e).
Proof.
  intros Hs. destruct (getProductsFromCategory_pages category s e d st) as (t & E & Hle).
  exists t. split; [exact E|].
  pose proof (pages_left_bound s e Hs). lia.
Qed.

(** The bound on the turns is never the reason why the loop ends: any two
    bounds of at least [pages_left] give the same run. *)
Lemma walk_loop_enough category maxPages d n :
  forall m p acc st,
    (pages_left maxPages p <= n)%nat -> (pages_left maxPages p <= m)%nat ->
    walk_loop' category maxPages d n p acc st = walk_loop' category maxPages d m p acc st.
Proof.
  unfold pages_left.
  induction n as [|n IH]; intros m p acc st Hn Hm.
  - destruct m; cbn [walk_loop]; destruct (Z.leb_spec p maxPages); try reflexivity; lia.
  - destruct m as [|m]; cbn [walk_loop]; destruct (Z.leb_spec p maxPages);
      try reflexivity; try lia.
    unfold bind at 1 3.
    destruct (fetchPage' category d p st) as [[[products hasNextPage] | e | msg] st1];
      try reflexivity.
    unfold bind, emit.
    destruct (negb hasNextPage || (len products =? 0)); [reflexivity|].
    apply IH; lia.
Qed.

(** A page without records ends the walk, whatever the oracle says: the
    walk returns what it had, and nothing follows the walker's line. *)
Lemma walk_loop_zero category maxPages d n p acc st hasNextPage st1 :
  p <= maxPages ->
  fetchPage' category d p st = (Ok ([], hasNextPage), st1) ->
  walk_loop' category maxPages d (S n) p acc st =
    (Ok acc, mkState (trace st1 ++ [EvLogFound 0 p (len acc)]) (gets st1)).
Proof.
  intros Hle Hpage. cbn [walk_loop].
  destruct (Z.leb_spec p maxPages); [|lia].
  unfold bind at 1. rewrite Hpage. unfold bind, emit. cbn [len length Z.of_nat].
  rewrite orb_true_r, app_nil_r. reflexivity.
Qed.

Lemma quiet_split t x r t1 y t2 :
  quiet t -> low y = false ->
  t ++ x :: r = t1 ++ y :: t2 ->
  (t1 = t /\ x = y /\ r = t2) \/ (exists t1', t1 = t ++ x :: t1' /\ r = t1' ++ y :: t2).
Proof.
  intros Q Hy. revert t1. induction Q as [|e t He _ IH]; intros t1 E.
  - destruct t1 as [|a t1]; cbn in E; injection E as -> ->.
    + left. auto.
    + right. exists t1. auto.
  - destruct t1 as [|a t1]; cbn in E; injection E as -> E.
    + congruence.
    + destruct (IH t1 E) as [(-> & -> & ->) | (t1' & -> & ->)].
      * left. auto.
      * right. exists t1'. auto.
Qed.

Lemma quiet_no_found t t1 y t2 : quiet t -> low y = false -> t <> t1 ++ y :: t2.
Proof.
  intros Q Hy E. unfold quiet in Q. rewrite E in Q.
  apply Forall_app in Q as [_ Q]. inversion Q. congruence.
Qed.

(** In the history of a run of the loop, the line of a page without records
    is the last event, and the run returns the records found so far. *)
Lemma walk_loop_zero_last category maxPages d n :
  forall p acc st r st',
    walk_loop' category maxPages d n p acc st = (r, st') ->
    exists t,
      trace st' = trace st ++ t
      /\ forall t1 t2 q total,
          t = t1 ++ EvLogFound 0 q total :: t2 ->
          t2 = [] /\ exists products, r = Ok products /\ len products = total.
Proof.
  induction n as [|n IH]; intros p acc st r st' Hrun.
  - exists []. cbn [walk_loop] in Hrun. destruct (p <=? maxPages);
      cbn in Hrun; injection Hrun as <- <-;
      rewrite app_nil_r; (split; [reflexivity|]); intros [|] ? ? ? E; discriminate E.
  - cbn [walk_loop] in Hrun. destruct (Z.leb_spec p maxPages) as [Hle | Hgt].
    2:{ exists []. cbn in Hrun. injection Hrun as <- <-.
        rewrite app_nil_r. split; [reflexivity|].
        intros [|] ? ? ? E; discriminate E. }
    unfold bind at 1 in Hrun.
    destruct (fetchPage_trace category d p st) as (t & E & Q).
    destruct (fetchPage' category d p st) as [[[products hasNextPage] | e | msg] st1];
      cbn [snd] in E.
    + unfold bind, emit in Hrun. cbn [trace gets] in Hrun.
      destruct (negb hasNextPage || (len products =? 0)) eqn:Hstop.
      * cbn [ret] in Hrun. injection Hrun as <- <-.
        eexists. cbn [trace]. rewrite E, <- app_assoc. cbn [app].
        split; [reflexivity|]. intros t1 t2 q total Eq.
        destruct t1 as [|a t1]; [discriminate Eq|]. cbn in Eq. injection Eq as <- Eq.
        destruct (quiet_split _ _ _ _ (EvLogFound 0 q total) _ Q eq_refl Eq)
          as [(_ & Hx & <-) | (t1' & _ & Hr)].
        -- split; [reflexivity|]. exists (acc ++ products).
           injection Hx as _ _ <-. auto.
        -- destruct t1'; discriminate Hr.
      * destruct (IH _ _ _ _ _ Hrun) as (t' & E' & Hlast).
        eexists. rewrite E'. cbn [trace]. rewrite E, <- !app_assoc. cbn [app].
        split; [reflexivity|]. intros t1 t2 q total Eq.
        destruct t1 as [|a t1]; [discriminate Eq|]. cbn in Eq. injection Eq as <- Eq.
        destruct (quiet_split _ _ _ _ (EvLogFound 0 q total) _ Q eq_refl Eq)
          as [(_ & Hx & _) | (t1' & _ & Hr)].
        -- apply orb_false_iff in Hstop. destruct Hstop as [_ Hlen].
           apply Z.eqb_neq in Hlen. injection Hx as Hz _ _. congruence.
        -- exact (Hlast _ _ _ _ Hr).
    + injection Hrun as <- <-.
      exists (EvLogPage p (pageURLOf category p) :: t).
      split; [exact E|]. intros t1 t2 q total Eq.
      destruct t1 as [|a t1]; [discriminate Eq|]. cbn in Eq. injection Eq as <- Eq.
      exfalso. exact (quiet_no_found _ _ (EvLogFound 0 q total) _ Q eq_refl Eq).
    + injection Hrun as <- <-.
      exists (EvLogPage p (pageURLOf category p) :: t).
      split; [exact E|]. intros t1 t2 q total Eq.
      destruct t1 as [|a t1]; [discriminate Eq|]. cbn in Eq. injection Eq as <- Eq.
      exfalso. exact (quiet_no_found _ _ (EvLogFound 0 q total) _ Q eq_refl Eq).
Qed.

(** The same for a whole walk. *)
Lemma getProductsFromCategory_zero_last category s e d st r st' :
  getProductsFromCategory' category s e d st = (r, st') ->
  exists t,
    trace st' = trace st ++ t
    /\ forall t1 t2 q total,
        t = t1 ++ EvLogFound 0 q total :: t2 ->
        t2 = [] /\ exists products, r = Ok products /\ len products = total.
Proof. unfold getProductsFromCategory. apply walk_loop_zero_last. Qed.

End WalkerFacts.

Example C1_from_page_zero :
  page_fetches (trace (Fixture.walk Fixture.endless 0 0).2) = 101%nat
  /\ attempts (trace (Fixture.walk Fixture.endless 0 0).2) = 101%nat.
Proof. split; vm_compute; reflexivity. Qed.

(** The endless site walked from page 1: the ceiling holds. *)
Lemma C1_page_fetches_bounded_witness :
  exists t,
    trace (Fixture.walk Fixture.endless 1 0).2 = trace init ++ t
    /\ Z.of_nat (page_fetches t) <= Z.max 0 (fetch_bound 1 0).
Proof.
  apply (C1_page_fetches_bounded Fixture.endless Fixture.Enc Fixture.sniff
           Fixture.EncWindows1251 Fixture.decode Fixture.parse id id
           Fixture.cat 1 0 0 init).
  lia.
Defined.

Example C1_ceiling_reached :
  page_fetches (trace (Fixture.walk Fixture.endless 1 0).2) = 100%nat.
Proof. vm_compute. reflexivity. Qed.

(** C1.  The ceiling of the claim holds for every walk that starts at a
    page [s >= 1], whatever the site answers and the oracle says.  But the
    walker never checks the start page, and its loop bounds the index of
    the page, not the number of pages: from page 0, over a site whose every
    page holds a record and links on, it fetches the 101 pages 0 to 100,
    above the ceiling of 100, the pages 0 and 1 both under the URL of the
    category. *)
Theorem C1_start_page_unvalidated :
  (forall net Encoding DetermineEncoding Windows1251 decode NewDocumentFromReader
          TrimSpace ToLower category s e d st,
      1 <= s ->
      exists t,
        trace (getProductsFromCategory net Encoding DetermineEncoding Windows1251 decode
                 NewDocumentFromReader TrimSpace ToLower category s e d st).2
          = trace st ++ t
        /\ Z.of_nat (page_fetches t) <= Z.max 0 (fetch_bound s e))
  /\ (exists products st',
        Fixture.walk Fixture.endless 0 0 = (Ok products, st')
        /\ page_fetches (trace st') = 101%nat
        /\ fetch_bound 0 0 = 100
        /\ map fst (pages_of (trace st')) = count_from 0 101
        /\ take 2 (pages_of (trace st'))
           = [(0, CatURL Fixture.cat); (1, CatURL Fixture.cat)]
        /\ len products = 101).
Proof.
  split.
  - intros. apply C1_page_fetches_bounded. assumption.
  - eexists. eexists. split; [vm_compute; reflexivity|].
    repeat split; vm_compute; reflexivity.
Qed.

(** C3.  In every walk the line of a page without records is the last event
    of the walk, whatever the oracle said of that page, and the walk
    returns the records of the pages before it.  On the site of three
    pages, where the oracle says "more" on every page and the third page is
    empty, the walk fetches three pages and returns twenty records. *)
Theorem C3_zero_items_end_walk :
  (forall net Encoding DetermineEncoding Windows1251 decode NewDocumentFromReader
          TrimSpace ToLower category s e d st r st',
      getProductsFromCategory net Encoding DetermineEncoding Windows1251 decode
        NewDocumentFromReader TrimSpace ToLower category s e d st = (r, st') ->
      exists t,
        trace st' = trace st ++ t
        /\ forall t1 t2 q total,
            t = t1 ++ EvLogFound 0 q total :: t2 ->
            t2 = [] /\ exists products, r = Ok products /\ len products = total)
  /\ (exists products st',
        Fixture.walk Fixture.site3 1 0 = (Ok products, st')
        /\ extracts (trace st') = [(10, true); (10, true); (0, true)]
        /\ page_fetches (trace st') = 3%nat
        /\ last (trace st') = Some (EvLogFound 0 3 20)
        /\ len products = 20).
Proof.
  split.
  - intros. eapply getProductsFromCategory_zero_last. eassumption.
  - eexists. eexists. split; [vm_compute; reflexivity|].
    repeat split; vm_compute; reflexivity.
Qed.

(** The site of three pages. *)
Lemma C3_zero_items_end_walk_witness :
  exists t,
    trace (Fixture.walk Fixture.site3 1 0).2 = trace init ++ t
    /\ forall t1 t2 q total,
        t = t1 ++ EvLogFound 0 q total :: t2 ->
        t2 = [] /\ exists products,
                    (Fixture.walk Fixture.site3 1 0).1 = Ok products
                    /\ len products = total.
Proof.
  apply (proj1 C3_zero_items_end_walk Fixture.site3 Fixture.Enc Fixture.sniff
           Fixture.EncWindows1251 Fixture.decode Fixture.parse id id
           Fixture.cat 1 0 0 init).
  destruct (Fixture.walk Fixture.site3 1 0) as [r st'] eqn:E.
  exact E.
Defined.

(** ** Detail page *)

Section DetailFacts.

Variable net : nat -> string -> GetResult.
Variable Encoding : Type.
Variable DetermineEncoding : string -> Encoding.
Variable Windows1251 : Encoding.
Variable decode : Encoding -> string -> string.
Variable NewDocumentFromReader : string -> Document + string.
Variable TrimSpace : string -> string.

Abbreviation getProductDetails' :=
  (getProductDetails net Encoding DetermineEncoding Windows1251 decode
     NewDocumentFromReader TrimSpace).

Lemma no_panic_ret {A} (a : A) : no_panic (ret a).
Proof. intros st msg. discriminate. Qed.

Lemma no_panic_fail {A} e : no_panic (@fail A e).
Proof. intros st msg. discriminate. Qed.

Lemma no_panic_emit e : no_panic (emit e).
Proof. intros st msg. discriminate. Qed.

Lemma no_panic_bind {A B} (m : M A) (k : A -> M B) :
  no_panic m -> (forall a, no_panic (k a)) -> no_panic (bind m k).
Proof.
  intros Hm Hk st msg. unfold bind. specialize (Hm st).
  destruct (m st) as [[a | e | p] st1]; cbn in *.
  - apply Hk.
  - discriminate.
  - exfalso. exact (Hm p eq_refl).
Qed.

Lemma no_panic_retry_loop url maxRetries d n :
  forall i err, no_panic (retry_loop net url maxRetries d n i err).
Proof.
  induction n as [|n IH]; intros i err; cbn [retry_loop].
  - apply no_panic_fail.
  - apply no_panic_bind; [intros st msg; discriminate|].
    intros [resp | m]; [apply no_panic_ret|].
    apply no_panic_bind; [apply no_panic_emit|]. intros _.
    apply no_panic_bind; [apply no_panic_emit|]. intros _.
    apply IH.
Qed.

Lemma no_panic_getUTF8Reader r :
  no_panic (getUTF8Reader Encoding DetermineEncoding Windows1251 decode r).
Proof. destruct r; [apply no_panic_ret | apply no_panic_fail]. Qed.

Lemma no_panic_newDocument text : no_panic (newDocument NewDocumentFromReader text).
Proof.
  unfold newDocument. destruct (NewDocumentFromReader text);
    [apply no_panic_ret | apply no_panic_fail].
Qed.


Lemma index_id_no_slash url :
  Contains url "/" = false ->
  (0 <? len (Split url "/")) = true
  /\ index (Split url "/") (len (Split url "/") - 2) = None.
Proof.
  intros Hc. rewrite GoStringFacts.Contains_slash in Hc.
  pose proof (GoStringFacts.Split_slash_length url) as Hlen.
  destruct (count_byte "/" url) as [|k] eqn:Hk; [|discriminate].
  unfold index, len. rewrite Hlen. split; reflexivity.
Qed.


(** The index expression itself is not guarded: were a URL without a slash
    answered and its page parsed, it would panic.  The client of the
    program answers no such URL ([getProductDetails_refused] below). *)
Lemma getProductDetails_panics url d st resp b doc st1 :
  Contains url "/" = false ->
  doRequestWithRetry net url 2 d
    (mkState (trace st ++ [EvSleep (wrap64 (d * millisecond))]) (gets st)) = (Ok resp, st1) ->
  StatusCode resp = 200 ->
  RespBody resp = BodyBytes b ->
  NewDocumentFromReader
    (decode (chosenEncoding Encoding DetermineEncoding Windows1251 b) b) = inl doc ->
  getProductDetails' url d st = (Panic "index out of range", st1).
Proof.
  intros Hc Hreq Hstatus Hbody Hdoc.
  destruct (index_id_no_slash url Hc) as [Hpos Hidx].
  unfold getProductDetails, bind, sleep_ms, emit. rewrite Hreq, Hstatus. cbn [Z.eqb negb Pos.eqb].
  rewrite Hbody. cbn [getUTF8Reader ret]. unfold newDocument. rewrite Hdoc. cbn [ret].
  rewrite Hpos, Hidx. reflexivity.
Qed.



(** A response with another status than 200 is an error of its own kind,
    after the one request that brought it. *)
Lemma getProductDetails_bad_status url d st resp :
  net (gets st) url = GetOk resp ->
  StatusCode resp <> 200 ->
  getProductDetails' url d st =
    (Err (ErrProductStatus (StatusCode resp)),
     mkState (trace st ++ [EvSleep (wrap64 (d * millisecond)); EvGet url]) (S (gets st))).
Proof.
  intros Hnet Hstatus.
  unfold getProductDetails, bind at 1, sleep_ms, emit, doRequestWithRetry.
  change (Z.to_nat 2) with 2%nat. unfold bind at 1.
  rewrite (retry_loop_answered net url 2 d 1 0 None resp) by exact Hnet.
  apply Z.eqb_neq in Hstatus. rewrite Hstatus. cbn [negb fail trace gets].
  rewrite <- app_assoc. reflexivity.
Qed.

End DetailFacts.





(** C8.  On a site that answers every request 404, the detail fetch and the
    catalogue fetch return their status errors after one request, but the
    category walker reads the error page as a page of the category: it
    returns the record shown there and no error. *)
Theorem C8_walker_reads_no_status :
  (exists products st',
      Fixture.walk Fixture.missing 1 0 = (Ok products, st')
      /\ map ID products = ["z"]
      /\ attempts (trace st') = 1%nat)
  /\ Fixture.details Fixture.missing "https://www.stanki.ru/catalog/p/z/"
     = (Err (ErrProductStatus 404),
        mkState [EvSleep 0; EvGet "https://www.stanki.ru/catalog/p/z/"] 1)
  /\ Fixture.catalog Fixture.missing
     = (Err (ErrCatalogStatus 404), mkState [EvGet catalogURL] 1).
Proof.
  split; [|split].
  - eexists. eexists. split; [vm_compute; reflexivity|].
    split; vm_compute; reflexivity.
  - vm_compute. reflexivity.
  - vm_compute. reflexivity.
Qed.

(** C2.  The walker hands the category, not the URL of the page, to the
    oracle.  On the second and last page of a category whose only
    page-index link leads back to page 1, heuristic 3 takes the page for
    page 1 and fires, alone among the five; the walk goes on to fetch a
    third page. *)
Theorem C2_heuristic3_fires_on_back_link :
  let doc := Fixture.page [Fixture.card "y"] ["?PAGEN_2=1"] in
  pageURLOf Fixture.cat 2 = "https://www.stanki.ru/catalog/x_y/?PAGEN_2=2"
  /\ Fixture.parse "last" = inl doc
  /\ heuristic1 doc = false
  /\ heuristic2 id id doc = false
  /\ heuristic3 doc Fixture.cat = true
  /\ heuristic4 doc = false
  /\ heuristic5 doc = false
  /\ heuristic3 doc (mkCategory "Stanki" (pageURLOf Fixture.cat 2)) = false
  /\ exists products st',
      Fixture.walk Fixture.site2 1 0 = (Ok products, st')
      /\ extracts (trace st') = [(1, true); (1, true); (0, false)]
      /\ page_fetches (trace st') = 3%nat.
Proof.
  cbv zeta. repeat (split; [vm_compute; reflexivity|]).
  eexists. eexists. split; [vm_compute; reflexivity|].
  split; vm_compute; reflexivity.
Qed.

(** ** Deduplicator *)

Section DedupeFacts.

Implicit Types (products out : list Product) (p q : Product) (id : string).

Lemma eqb_empty_false id : id <> "" -> String.eqb id "" = false.
Proof. intros H. apply String.eqb_neq. exact H. Qed.

(** [uniqueMap] holds, under every non-empty id of the input, the last
    record read with it, and nothing under the empty id. *)
Lemma uniqueMapOf_lookup products id :
  uniqueMapOf products !! id =
  if decide (id = "") then None else lastWithID id products.
Proof.
  unfold uniqueMapOf, lastWithID.
  induction products as [|x l IH] using rev_ind.
  - cbn. rewrite lookup_empty. destruct (decide (id = "")); reflexivity.
  - rewrite fold_left_app, filter_app, last_app. cbn [fold_left].
    destruct (String.eqb_spec (ID x) "") as [Hx | Hx].
    + rewrite IH. destruct (decide (id = "")) as [-> | Hid]; [reflexivity|].
      rewrite filter_cons_False by congruence. reflexivity.
    + destruct (decide (ID x = id)) as [<- | Hne].
      * rewrite lookup_insert_eq, filter_cons_True by reflexivity.
        destruct (decide (ID x = "")); [contradiction | reflexivity].
      * rewrite lookup_insert_ne by exact Hne. rewrite IH.
        rewrite filter_cons_False by exact Hne. reflexivity.
Qed.

Lemma lastWithID_spec id products p :
  lastWithID id products = Some p ->
  ID p = id /\ exists l1 l2, products = l1 ++ p :: l2 /\ Forall (fun q => ID q <> id) l2.
Proof.
  unfold lastWithID.
  induction products as [|x l IH] using rev_ind; [discriminate|].
  rewrite filter_app, last_app.
  destruct (decide (ID x = id)) as [Hx | Hx].
  - rewrite filter_cons_True by exact Hx. cbn. intros [= <-].
    split; [exact Hx|]. exists l, []. split; [reflexivity | constructor].
  - rewrite filter_cons_False by exact Hx. cbn. intros Hl.
    destruct (IH Hl) as (Hid & l1 & l2 & -> & Hall).
    split; [exact Hid|]. exists l1, (l2 ++ [x]).
    rewrite <- app_assoc. split; [reflexivity|].
    apply Forall_app. split; [exact Hall | constructor; [exact Hx | constructor]].
Qed.

Lemma lastWithID_is_Some id products q :
  q ∈ products -> ID q = id -> is_Some (lastWithID id products).
Proof.
  intros Hin Hid. unfold lastWithID. apply last_is_Some.
  intros Hnil. assert (Hq : q ∈ filter (fun q => ID q = id) products)
    by (apply list_elem_of_filter; auto).
  rewrite Hnil in Hq. inversion Hq.
Qed.

(** Every value of [uniqueMap] sits under its own id. *)
Lemma uniqueMapOf_key products id p :
  uniqueMapOf products !! id = Some p -> ID p = id /\ id <> "".
Proof.
  rewrite uniqueMapOf_lookup. destruct (decide (id = "")); [discriminate|].
  intros H. apply lastWithID_spec in H. tauto.
Qed.

Lemma uniqueMapOf_size products : (size (uniqueMapOf products) <= length products)%nat.
Proof.
  unfold uniqueMapOf.
  induction products as [|x l IH] using rev_ind.
  - cbn. rewrite map_size_empty. lia.
  - rewrite fold_left_app, length_app. cbn [fold_left length].
    destruct (String.eqb (ID x) ""); [lia|].
    rewrite map_size_insert.
    destruct (_ !! ID x); cbn; lia.
Qed.

(** The survivors: the last record of every non-empty id. *)
Lemma removeDuplicateProducts_elem products p :
  p ∈ removeDuplicateProducts products <->
  ID p <> "" /\ lastWithID (ID p) products = Some p.
Proof.
  unfold removeDuplicateProducts. rewrite list_elem_of_fmap. split.
  - intros ([id p'] & -> & Hin). cbn.
    apply elem_of_map_to_list in Hin.
    destruct (uniqueMapOf_key _ _ _ Hin) as [<- Hne].
    split; [exact Hne|].
    rewrite uniqueMapOf_lookup in Hin. destruct (decide (ID p' = "")); [contradiction|].
    exact Hin.
  - intros [Hne Hlast]. exists (ID p, p). split; [reflexivity|].
    apply elem_of_map_to_list. rewrite uniqueMapOf_lookup.
    destruct (decide (ID p = "")); [contradiction | exact Hlast].
Qed.

Lemma removeDuplicateProducts_ids products :
  ID <$> removeDuplicateProducts products = (map_to_list (uniqueMapOf products)).*1.
Proof.
  unfold removeDuplicateProducts. rewrite <- list_fmap_compose.
  apply list_fmap_ext. intros i [id p] Hi. cbn.
  apply list_elem_of_lookup_2 in Hi. apply elem_of_map_to_list in Hi.
  apply uniqueMapOf_key in Hi. tauto.
Qed.

Lemma removeDuplicateProducts_NoDup products :
  NoDup (ID <$> removeDuplicateProducts products).
Proof. rewrite removeDuplicateProducts_ids. apply NoDup_fst_map_to_list. Qed.

Lemma removeDuplicateProducts_length products :
  (length (removeDuplicateProducts products) <= length products)%nat.
Proof.
  unfold removeDuplicateProducts. rewrite length_fmap, length_map_to_list.
  apply uniqueMapOf_size.
Qed.

End DedupeFacts.

(** C4.  Whatever order the map is read in, the deduplicator returns no
    more records than it was given, no two of them with the same id, and
    exactly the last-read record of every non-empty id of the input. *)
Theorem C4_dedupe_last_wins (products out : list Product) :
  removeDuplicateProducts_returns products out ->
  (length out <= length products)%nat
  /\ NoDup (ID <$> out)
  /\ (forall p, p ∈ out <-> ID p <> "" /\ lastWithID (ID p) products = Some p)
  /\ (forall p, p ∈ out ->
        exists l1 l2, products = l1 ++ p :: l2 /\ Forall (fun q => ID q <> ID p) l2)
  /\ (forall q, q ∈ products -> ID q <> "" -> exists p, p ∈ out /\ ID p = ID q).
Proof.
  unfold removeDuplicateProducts_returns. intros Hperm.
  assert (Helem : forall p, p ∈ out <-> ID p <> "" /\ lastWithID (ID p) products = Some p).
  { intros p. rewrite Hperm. apply removeDuplicateProducts_elem. }
  split; [|split; [|split; [|split]]].
  - rewrite Hperm. apply removeDuplicateProducts_length.
  - rewrite Hperm. apply removeDuplicateProducts_NoDup.
  - exact Helem.
  - intros p Hp. apply Helem in Hp as [_ Hlast].
    apply lastWithID_spec in Hlast. tauto.
  - intros q Hq Hne.
    destruct (lastWithID_is_Some (ID q) products q Hq eq_refl) as [p Hp].
    destruct (lastWithID_spec _ _ _ Hp) as [Hid _].
    exists p. split; [|exact Hid]. apply Helem. rewrite Hid. auto.
Qed.

(** Two records with the id ["42"] and different names: the later one
    remains, alone. *)
Lemma C4_dedupe_last_wins_witness :
  let products := [Fixture.item "42" "old"; Fixture.item "42" "new"] in
  let out := [Fixture.item "42" "new"] in
  (length out <= length products)%nat
  /\ NoDup (ID <$> out)
  /\ (forall p, p ∈ out <-> ID p <> "" /\ lastWithID (ID p) products = Some p)
  /\ (forall p, p ∈ out ->
        exists l1 l2, products = l1 ++ p :: l2 /\ Forall (fun q => ID q <> ID p) l2)
  /\ (forall q, q ∈ products -> ID q <> "" -> exists p, p ∈ out /\ ID p = ID q).
Proof.
  apply (C4_dedupe_last_wins [Fixture.item "42" "old"; Fixture.item "42" "new"]
           [Fixture.item "42" "new"]).
  unfold removeDuplicateProducts_returns. vm_compute. reflexivity.
Defined.

Example dedupe_scenario_42 :
  removeDuplicateProducts [Fixture.item "42" "old"; Fixture.item "42" "new"]
  = [Fixture.item "42" "new"].
Proof. vm_compute. reflexivity. Qed.

Example dedupe_mixed :
  removeDuplicateProducts
    [Fixture.item "1" "a"; Fixture.item "42" "old"; Fixture.item "" "anon";
     Fixture.item "42" "new"]
  ≡ₚ [Fixture.item "1" "a"; Fixture.item "42" "new"].
Proof. vm_compute. reflexivity || apply Permutation_swap. Qed.

(** C6.  A record without an id is in the input and not in the output. *)
Lemma C6_counterexample :
  ~ (forall products out p,
        removeDuplicateProducts_returns products out ->
        p ∈ products -> ID p = "" -> p ∈ out).
Proof.
  intros H.
  specialize (H [Fixture.item "" "anon"] [] (Fixture.item "" "anon")).
  assert (Hin : Fixture.item "" "anon" ∈ @nil Product).
  { apply H.
    - unfold removeDuplicateProducts_returns. vm_compute. reflexivity.
    - apply list_elem_of_here.
    - reflexivity. }
  inversion Hin.
Qed.

(** C6, as amended.  The deduplicator drops the records without an id: every
    record it returns is a record of the input with a non-empty id. *)
Theorem C6_empty_ids_dropped (products out : list Product) (p : Product) :
  removeDuplicateProducts_returns products out ->
  p ∈ out -> p ∈ products /\ ID p <> "".
Proof.
  unfold removeDuplicateProducts_returns. intros Hperm Hp.
  rewrite Hperm in Hp. apply removeDuplicateProducts_elem in Hp as [Hne Hlast].
  split; [|exact Hne].
  apply lastWithID_spec in Hlast as (_ & l1 & l2 & -> & _).
  apply elem_of_app. right. apply list_elem_of_here.
Qed.

(** A named record next to a nameless one. *)
Lemma C6_empty_ids_dropped_witness :
  Fixture.item "7" "lathe" ∈ [Fixture.item "" "anon"; Fixture.item "7" "lathe"]
  /\ ID (Fixture.item "7" "lathe") <> "".
Proof.
  apply (C6_empty_ids_dropped [Fixture.item "" "anon"; Fixture.item "7" "lathe"]
           [Fixture.item "7" "lathe"] (Fixture.item "7" "lathe")).
  - unfold removeDuplicateProducts_returns. vm_compute. reflexivity.
  - apply list_elem_of_here.
Defined.

(** ** Enrichment merger *)

Section EnrichFacts.

Variable net : nat -> string -> GetResult.
Variable Encoding : Type.
Variable DetermineEncoding : string -> Encoding.
Variable Windows1251 : Encoding.
Variable decode : Encoding -> string -> string.
Variable NewDocumentFromReader : string -> Document + string.
Variable TrimSpace : string -> string.

Abbreviation details' :=
  (getProductDetails net Encoding DetermineEncoding Windows1251 decode
     NewDocumentFromReader TrimSpace).
Abbreviation enrichWorker' :=
  (enrichWorker net Encoding DetermineEncoding Windows1251 decode
     NewDocumentFromReader TrimSpace).
Abbreviation enrichProduct' :=
  (enrichProduct net Encoding DetermineEncoding Windows1251 decode
     NewDocumentFromReader TrimSpace).
Abbreviation enrichProductsWithDetails' :=
  (enrichProductsWithDetails net Encoding DetermineEncoding Windows1251 decode
     NewDocumentFromReader TrimSpace).

Lemma mergeDetails_Description prod details :
  Description (mergeDetails prod details) =
  if String.eqb (Description details) "" then Description prod else Description details.
Proof.
  unfold mergeDetails.
  destruct (String.eqb (Description details) ""), (0 <? len (Features details)); reflexivity.
Qed.

Lemma mergeDetails_Features prod details :
  Features (mergeDetails prod details) =
  match Features details with [] => Features prod | _ => Features details end.
Proof.
  unfold mergeDetails.
  destruct (String.eqb (Description details) ""), (Features details); reflexivity.
Qed.

Lemma mergeDetails_frame prod details :
  ID (mergeDetails prod details) = ID prod
  /\ Name (mergeDetails prod details) = Name prod
  /\ URL (mergeDetails prod details) = URL prod
  /\ Price (mergeDetails prod details) = Price prod
  /\ ImageURL (mergeDetails prod details) = ImageURL prod
  /\ Category_ (mergeDetails prod details) = Category_ prod.
Proof.
  unfold mergeDetails.
  destruct (String.eqb (Description details) ""), (0 <? len (Features details));
    repeat split; reflexivity.
Qed.

Lemma enriches_refl p : enriches p p.
Proof. unfold enriches. tauto. Qed.

Lemma enriches_mergeDetails prod details : enriches prod (mergeDetails prod details).
Proof.
  unfold enriches. destruct (mergeDetails_frame prod details) as (? & ? & ? & ? & ? & ?).
  repeat (split; [assumption|]).
  rewrite mergeDetails_Description, mergeDetails_Features. split.
  - destruct (String.eqb_spec (Description details) ""); auto.
  - destruct (Features details); [auto | right; discriminate].
Qed.

(** One record of the pass is passed on, merged, or lost with the run. *)
Lemma enrichProduct_enriches prod d st q st' :
  enrichProduct' prod d st = (Ok q, st') -> enriches prod q.
Proof.
  unfold enrichProduct, enrichWorker.
  destruct (alreadyEnriched prod).
  - intros [= <- _]. apply enriches_refl.
  - destruct (details' (URL prod) d st) as [[details | e | msg] st1]; intros [= <- _].
    + apply enriches_mergeDetails.
    + apply enriches_refl.
Qed.

(** The pass as a whole: record by record, nothing known is lost. *)
Lemma enrichProductsWithDetails_enriches products d :
  forall st out st',
    enrichProductsWithDetails' products d st = (Ok out, st') ->
    Forall2 enriches products out.
Proof.
  induction products as [|prod rest IH]; intros st out st'; cbn [enrichProductsWithDetails].
  - intros [= <- _]. constructor.
  - unfold bind at 1.
    destruct (enrichProduct' prod d st) as [[q | e | msg] st1] eqn:Hq; try discriminate.
    unfold bind at 1.
    destruct (enrichProductsWithDetails' rest d st1) as [[out' | e | msg] st2] eqn:Hrest;
      try discriminate.
    intros [= <- _]. constructor.
    + eapply enrichProduct_enriches. exact Hq.
    + eapply IH. exact Hrest.
Qed.

End EnrichFacts.

(** C5.  A record that has both a description and features is passed on
    without a fetch.  Otherwise, when the detail fetch returns details, the
    description is replaced only by a non-empty fetched description and the
    features only by a non-empty fetched list, the other fields staying as
    they were; and when the detail fetch returns an error the record is
    passed on unchanged, so a description it had is the description it
    keeps. *)
Theorem C5_merge_keeps_known :
  forall net Encoding DetermineEncoding Windows1251 decode NewDocumentFromReader
         TrimSpace prod d st,
    (alreadyEnriched prod = true ->
     enrichProduct net Encoding DetermineEncoding Windows1251 decode
       NewDocumentFromReader TrimSpace prod d st = (Ok prod, st))
    /\ (forall details st1,
          alreadyEnriched prod = false ->
          getProductDetails net Encoding DetermineEncoding Windows1251 decode
            NewDocumentFromReader TrimSpace (URL prod) d st = (Ok details, st1) ->
          exists prod',
            enrichProduct net Encoding DetermineEncoding Windows1251 decode
              NewDocumentFromReader TrimSpace prod d st = (Ok prod', st1)
            /\ Description prod' =
               (if String.eqb (Description details) "" then Description prod
                else Description details)
            /\ Features prod' =
               (match Features details with [] => Features prod | _ => Features details end)
            /\ ID prod' = ID prod /\ Name prod' = Name prod /\ URL prod' = URL prod
            /\ Price prod' = Price prod /\ ImageURL prod' = ImageURL prod
            /\ Category_ prod' = Category_ prod)
    /\ (forall e st1,
          getProductDetails net Encoding DetermineEncoding Windows1251 decode
            NewDocumentFromReader TrimSpace (URL prod) d st = (Err e, st1) ->
          (enrichProduct net Encoding DetermineEncoding Windows1251 decode
             NewDocumentFromReader TrimSpace prod d st).1 = Ok prod).
Proof.
  intros. unfold enrichProduct, enrichWorker. split; [|split].
  - intros ->. reflexivity.
  - intros details st1 Hskip Hfetch. rewrite Hskip. cbv beta. rewrite Hfetch.
    exists (mergeDetails prod details).
    split; [reflexivity|].
    split; [apply mergeDetails_Description|].
    split; [apply mergeDetails_Features|].
    apply mergeDetails_frame.
  - intros e st1 Hfetch. destruct (alreadyEnriched prod); [reflexivity|].
    cbv beta. rewrite Hfetch. reflexivity.
Qed.

(** A record with the description ["Y"] and no features: with the site down
    it comes back as it was; from a shop whose detail pages are bare it
    keeps ["Y"]; from a shop that describes it, it takes ["X"]. *)
Lemma C5_merge_keeps_known_witness :
  let prod := mkProduct "7" "lathe" "https://www.stanki.ru/catalog/p/7/" "Y" "" "" "" [] in
  (Fixture.enrich Fixture.down prod).1 = Ok prod
  /\ (exists prod',
        Fixture.enrich Fixture.bareShop prod
        = (Ok prod', mkState [EvSleep 0; EvGet "https://www.stanki.ru/catalog/p/7/"] 1)
        /\ Description prod' = "Y"
        /\ Features prod' = []
        /\ ID prod' = "7" /\ Name prod' = "lathe"
        /\ URL prod' = "https://www.stanki.ru/catalog/p/7/"
        /\ Price prod' = "" /\ ImageURL prod' = "" /\ Category_ prod' = "").
Proof.
  cbv zeta. split.
  - eapply (proj2 (proj2 (C5_merge_keeps_known Fixture.down Fixture.Enc Fixture.sniff
                            Fixture.EncWindows1251 Fixture.decode Fixture.parse id
                            _ 0 init))).
    vm_compute. reflexivity.
  - eapply (proj1 (proj2 (C5_merge_keeps_known Fixture.bareShop Fixture.Enc Fixture.sniff
                            Fixture.EncWindows1251 Fixture.decode Fixture.parse id
                            (mkProduct "7" "lathe" "https://www.stanki.ru/catalog/p/7/"
                               "Y" "" "" "" []) 0 init))
              (mkProduct "7" "" "" "" "" "" "" [])).
    + reflexivity.
    + vm_compute. reflexivity.
Defined.

Example enrich_scenarios :
  (exists q st,
      Fixture.enrich Fixture.shop
        (mkProduct "7" "lathe" "https://www.stanki.ru/catalog/p/7/" "" "" "" "" [])
      = (Ok q, st)
      /\ Description q = "X" /\ Features q = ["3 kW"] /\ Name q = "lathe")
  /\ (exists q st,
         Fixture.enrich Fixture.bareShop
           (mkProduct "7" "lathe" "https://www.stanki.ru/catalog/p/7/" "Y" "" "" "" [])
         = (Ok q, st)
         /\ Description q = "Y").
Proof.
  split; eexists; eexists; (split; [vm_compute; reflexivity|]); repeat split.
Qed.

(** ** Encoding normaliser *)

(** The override looks at the bytes as they came, never at what the sniffed
    decoder makes of them. *)
Lemma chosenEncoding_raw (Encoding : Type) (DetermineEncoding : string -> Encoding)
      (Windows1251 : Encoding) (b : string) :
  chosenEncoding Encoding DetermineEncoding Windows1251 b =
  if Contains b marker_bytes then Windows1251 else DetermineEncoding b.
Proof.
  unfold chosenEncoding. change marker_rune with marker_bytes.
  destruct (Contains b marker_bytes); reflexivity.
Qed.

(** C9.  The normaliser overrides the sniffed encoding exactly when the raw
    bytes hold the three bytes of U+FFFD.  A page that declares UTF-8 and
    carries Windows-1251 text has no such bytes: the sniffed decoding is
    full of replacement characters, and yet the sniffed encoding is kept
    and the reader yields them. *)
Theorem C9_override_reads_raw_bytes :
  (forall (Encoding : Type) (DetermineEncoding : string -> Encoding)
          (Windows1251 : Encoding) (b : string),
      chosenEncoding Encoding DetermineEncoding Windows1251 b =
      if Contains b marker_bytes then Windows1251 else DetermineEncoding b)
  /\ Contains Fixture.mislabelled marker_bytes = false
  /\ Contains (Fixture.decode (Fixture.sniff Fixture.mislabelled) Fixture.mislabelled)
       marker_bytes = true
  /\ chosenEncoding Fixture.Enc Fixture.sniff Fixture.EncWindows1251 Fixture.mislabelled
     = Fixture.EncUTF8
  /\ getUTF8Reader Fixture.Enc Fixture.sniff Fixture.EncWindows1251 Fixture.decode
       (BodyBytes Fixture.mislabelled) init
     = (Ok ("<meta charset=utf-8>" +:+ marker_bytes +:+ marker_bytes +:+ marker_bytes
            +:+ marker_bytes +:+ marker_bytes +:+ marker_bytes), init).
Proof.
  split; [exact chosenEncoding_raw|].
  repeat split; vm_compute; reflexivity.
Qed.

(** ** Pagination oracle *)

Section OracleFacts.

Lemma EachFlag_existsb fires sel flag :
  EachFlag fires sel flag = flag || existsb fires sel.
Proof.
  unfold EachFlag. revert flag.
  induction sel as [|s sel IH]; intros flag; cbn [fold_left existsb].
  - rewrite orb_false_r. reflexivity.
  - rewrite IH. destruct (fires s), flag; reflexivity.
Qed.

(** With no page index in the URL it is given, heuristic 3 fires on any
    page-index link. *)
Lemma heuristic3_without_index doc category :
  Contains (CatURL category) "PAGEN_2=" = false ->
  heuristic3 doc category = existsb is_page_link (docFind doc "a").
Proof.
  intros Hurl. unfold heuristic3. rewrite EachFlag_existsb. cbn [orb].
  induction (docFind doc "a") as [|s sel IH]; [reflexivity|].
  cbn [existsb]. rewrite IH. f_equal.
  unfold link_fires, is_page_link. rewrite Hurl.
  destruct (Attr [s] "href") as [href|]; [|reflexivity].
  destruct (Contains href "PAGEN_2="); reflexivity.
Qed.

(** With a page index in the URL it is given, heuristic 3 fires only on a
    link with a larger one. *)
Lemma heuristic3_fires_larger doc category :
  Contains (CatURL category) "PAGEN_2=" = true ->
  heuristic3 doc category = true ->
  exists s href cur next,
    In s (docFind doc "a")
    /\ Attr [s] "href" = Some href
    /\ pageIndexOf (Split (CatURL category) "PAGEN_2=") = Some cur
    /\ pageIndexOf (Split href "PAGEN_2=") = Some next
    /\ cur < next.
Proof.
  intros Hurl. unfold heuristic3. rewrite EachFlag_existsb. cbn [orb].
  intros H. apply existsb_exists in H as (s & Hin & Hs).
  unfold link_fires in Hs. rewrite Hurl in Hs.
  destruct (Attr [s] "href") as [href|] eqn:Hhref; [|discriminate].
  destruct (Contains href "PAGEN_2="); [|discriminate].
  destruct (1 <? len (Split (CatURL category) "PAGEN_2=")); [|discriminate].
  destruct (1 <? len (Split href "PAGEN_2=")); [|discriminate].
  destruct (pageIndexOf (Split (CatURL category) "PAGEN_2=")) as [cur|] eqn:Hcur;
    [|discriminate].
  destruct (pageIndexOf (Split href "PAGEN_2=")) as [next|] eqn:Hnext; [|discriminate].
  exists s, href, cur, next. apply Z.ltb_lt in Hs. repeat split; auto.
Qed.

End OracleFacts.

(** * Further properties of the program *)

(** ** Fetcher: the retry loop in general *)

Section RetryFacts.

Variable net : nat -> string -> GetResult.

Lemma attempts_app t1 t2 : attempts (t1 ++ t2) = (attempts t1 + attempts t2)%nat.
Proof. unfold attempts. rewrite filter_app, length_app. reflexivity. Qed.

Lemma sleeps_app t1 t2 : sleeps (t1 ++ t2) = sleeps t1 ++ sleeps t2.
Proof. unfold sleeps. apply omap_app. Qed.

Lemma wires_app t1 t2 : wires t1 -> wires t2 -> wires (t1 ++ t2).
Proof. unfold wires. intros. apply Forall_app. auto. Qed.

(** Whatever the site answers, the loop writes fetcher events only, makes
    no more requests than it has turns, and counts each one. *)
Lemma retry_loop_wires url maxRetries d n :
  forall i err st,
  exists t,
    (retry_loop net url maxRetries d n i err st).2
      = mkState (trace st ++ t) (gets st + attempts t)
    /\ wires t
    /\ (attempts t <= n)%nat
    /\ (n <> O -> exists t', t = EvGet url :: t').
Proof.
  induction n as [|n IH]; intros i err st.
  - exists []. cbn. rewrite app_nil_r, Nat.add_0_r. destruct st.
    repeat split; try constructor; try lia; try congruence.
  - destruct (net (gets st) url) as [resp | msg] eqn:Hnet.
    + rewrite (retry_loop_answered net url maxRetries d n i err resp st Hnet).
      exists [EvGet url]. cbn [snd]. change (attempts [EvGet url]) with 1%nat.
      rewrite Nat.add_1_r. repeat split.
      * constructor; [reflexivity | constructor].
      * lia.
      * intros _. exists []. reflexivity.
    + rewrite (retry_loop_failed net url maxRetries d n i err msg st Hnet).
      destruct (IH (i + 1) (Some msg)
                  (mkState (trace st ++ [EvGet url; EvLogRetry url (i + 1) maxRetries;
                                         EvSleep (backoff d (i + 1))])
                           (S (gets st)))) as (t & E & W & Hle & _).
      exists ([EvGet url; EvLogRetry url (i + 1) maxRetries; EvSleep (backoff d (i + 1))] ++ t).
      rewrite E. cbn [trace gets]. rewrite attempts_app, <- app_assoc.
      change (attempts [EvGet url; EvLogRetry url (i + 1) maxRetries;
                        EvSleep (backoff d (i + 1))]) with 1%nat.
      repeat split.
      * f_equal. lia.
      * apply wires_app; [|exact W]. repeat constructor.
      * lia.
      * intros _. eexists. reflexivity.
Qed.

(** X1.  A call of the fetcher makes at most [maxRetries] requests, whatever
    the site answers, and none when [maxRetries] is not positive. *)
Theorem doRequestWithRetry_attempts_bounded url maxRetries d st :
  exists t,
    (doRequestWithRetry net url maxRetries d st).2
      = mkState (trace st ++ t) (gets st + attempts t)
    /\ wires t
    /\ Z.of_nat (attempts t) <= Z.max 0 maxRetries.
Proof.
  unfold doRequestWithRetry.
  destruct (retry_loop_wires url maxRetries d (Z.to_nat maxRetries) 0 None st)
    as (t & E & W & Hle & _).
  exists t. repeat split; try assumption. lia.
Qed.

(** The sleeps after the failures [i + 1], ..., [i + k]. *)
Lemma retry_loop_first_success url maxRetries d resp k :
  forall n i err st,
    (k < n)%nat ->
    (forall j, (j < k)%nat -> exists msg, net (gets st + j) url = GetErr msg) ->
    net (gets st + k) url = GetOk resp ->
    exists t,
      retry_loop net url maxRetries d n i err st
        = (Ok resp, mkState (trace st ++ t) (gets st + S k))
      /\ attempts t = S k
      /\ sleeps t = map (fun a => backoff d a) (count_from (i + 1) k).
Proof.
  induction k as [|k IH]; intros n i err st Hk Hfail Hok.
  - destruct n as [|n]; [lia|]. rewrite Nat.add_0_r in Hok.
    rewrite (retry_loop_answered net url maxRetries d n i err resp st Hok).
    exists [EvGet url]. rewrite Nat.add_1_r. repeat split.
  - destruct n as [|n]; [lia|].
    destruct (Hfail O ltac:(lia)) as [msg Hmsg]. rewrite Nat.add_0_r in Hmsg.
    rewrite (retry_loop_failed net url maxRetries d n i err msg st Hmsg).
    edestruct (IH n (i + 1) (Some msg)) as (t & E & Ha & Hs).
    4:{ rewrite E. cbn [trace gets].
        exists ([EvGet url; EvLogRetry url (i + 1) maxRetries;
                 EvSleep (backoff d (i + 1))] ++ t).
        rewrite <- app_assoc, attempts_app, sleeps_app, Ha, Hs.
        repeat split. f_equal. f_equal. lia. }
    + lia.
    + cbn [gets]. intros j Hj. destruct (Hfail (S j) ltac:(lia)) as [m Hm].
      exists m. replace (S (gets st) + j)%nat with (gets st + S j)%nat by lia. exact Hm.
    + cbn [gets]. replace (S (gets st) + k)%nat with (gets st + S k)%nat by lia. exact Hok.
Qed.

(** X2.  When the first [k] requests fail and the next one is answered, with
    [k] below [maxRetries], the fetcher returns that answer after exactly
    [k + 1] requests, having slept the backoff of attempts 1 to [k] in
    order. *)
Theorem doRequestWithRetry_first_success url maxRetries d st k resp :
  Z.of_nat k < maxRetries ->
  (forall j, (j < k)%nat -> exists msg, net (gets st + j) url = GetErr msg) ->
  net (gets st + k) url = GetOk resp ->
  exists t,
    doRequestWithRetry net url maxRetries d st
      = (Ok resp, mkState (trace st ++ t) (gets st + S k))
    /\ attempts t = S k
    /\ sleeps t = map (fun a => backoff d a) (count_from 1 k).
Proof.
  intros Hk Hfail Hok. unfold doRequestWithRetry.
  apply (retry_loop_first_success url maxRetries d resp k (Z.to_nat maxRetries) 0 None st);
    try assumption. lia.
Qed.

Lemma retry_loop_exhausted url maxRetries d n :
  forall i err st,
    (forall j, (j < n)%nat -> exists msg, net (gets st + j) url = GetErr msg) ->
    exists t cause,
      retry_loop net url maxRetries d n i err st
        = (Err (ErrRetries url maxRetries cause), mkState (trace st ++ t) (gets st + n))
      /\ attempts t = n
      /\ sleeps t = map (fun a => backoff d a) (count_from (i + 1) n)
      /\ match n with
         | O => cause = err /\ t = []
         | S n' => net (gets st + n') url = GetErr (default "" cause) /\ cause <> None
         end.
Proof.
  induction n as [|n IH]; intros i err st Hfail.
  - exists [], err. cbn. rewrite app_nil_r, Nat.add_0_r. destruct st. repeat split.
  - destruct (Hfail O ltac:(lia)) as [msg Hmsg]. rewrite Nat.add_0_r in Hmsg.
    rewrite (retry_loop_failed net url maxRetries d n i err msg st Hmsg).
    edestruct (IH (i + 1) (Some msg)) as (t & cause & E & Ha & Hs & Hc).
    2:{ rewrite E. cbn [trace gets] in *.
        exists ([EvGet url; EvLogRetry url (i + 1) maxRetries;
                 EvSleep (backoff d (i + 1))] ++ t), cause.
        rewrite <- app_assoc, attempts_app, sleeps_app, Ha, Hs.
        split; [f_equal; f_equal; lia|]. split; [reflexivity|]. split; [reflexivity|].
        destruct n as [|n'].
        - destruct Hc as [-> _]. cbn. rewrite Nat.add_0_r.
          split; [exact Hmsg | discriminate].
        - replace (gets st + S n')%nat with (S (gets st) + n')%nat by lia. exact Hc. }
    cbn [gets]. intros j Hj. destruct (Hfail (S j) ltac:(lia)) as [m Hm].
    exists m. replace (S (gets st) + j)%nat with (gets st + S j)%nat by lia. exact Hm.
Qed.

(** X3.  When every one of the [maxRetries] requests fails, the fetcher makes
    exactly that many, sleeps the backoff of each attempt in order, and
    returns the retries-exhausted error with the error of the last request;
    with [maxRetries] not positive it makes no request and the error has no
    cause. *)
Theorem doRequestWithRetry_exhausted url maxRetries d st :
  (forall j, (j < Z.to_nat maxRetries)%nat ->
             exists msg, net (gets st + j) url = GetErr msg) ->
  exists t cause,
    doRequestWithRetry net url maxRetries d st
      = (Err (ErrRetries url maxRetries cause),
         mkState (trace st ++ t) (gets st + Z.to_nat maxRetries))
    /\ attempts t = Z.to_nat maxRetries
    /\ sleeps t = map (fun a => backoff d a) (count_from 1 (Z.to_nat maxRetries))
    /\ (maxRetries <= 0 -> cause = None /\ t = [])
    /\ (0 < maxRetries ->
        exists msg, cause = Some msg
                    /\ net (gets st + Nat.pred (Z.to_nat maxRetries)) url = GetErr msg).
Proof.
  intros Hfail. unfold doRequestWithRetry.
  destruct (retry_loop_exhausted url maxRetries d (Z.to_nat maxRetries) 0 None st Hfail)
    as (t & cause & E & Ha & Hs & Hc).
  exists t, cause. rewrite E. repeat split; try assumption.
  - destruct (Z.to_nat maxRetries) eqn:Hn; [tauto | lia].
  - destruct (Z.to_nat maxRetries) eqn:Hn; [tauto | lia].
  - intros Hpos. destruct (Z.to_nat maxRetries) as [|n'] eqn:Hn; [lia|].
    destruct Hc as [Hlast Hsome]. destruct cause as [msg|]; [|contradiction].
    exists msg. auto.
Qed.

End RetryFacts.

(** Two failures, then an answer, within three attempts. *)
Lemma doRequestWithRetry_first_success_witness :
  let net := fun (n : nat) (url : string) =>
               if (n <? 2)%nat then GetErr "timeout" else Fixture.ok "first" in
  exists t,
    doRequestWithRetry net catalogURL 3 500 init
      = (Ok (mkResponse 200 (BodyBytes "first")), mkState (trace init ++ t) 3)
    /\ attempts t = 3%nat
    /\ sleeps t = map (fun a => backoff 500 a) (count_from 1 2).
Proof.
  cbv zeta.
  apply (doRequestWithRetry_first_success
           (fun n _ => if (n <? 2)%nat then GetErr "timeout" else Fixture.ok "first")
           catalogURL 3 500 init 2 (mkResponse 200 (BodyBytes "first"))).
  - lia.
  - intros j Hj. exists "timeout". cbn [gets init Nat.add].
    destruct j as [|[|j]]; [reflexivity | reflexivity | lia].
  - reflexivity.
Defined.

(** The site that is down, asked twice. *)
Lemma doRequestWithRetry_exhausted_witness :
  exists t cause,
    doRequestWithRetry Fixture.down catalogURL 2 500 init
      = (Err (ErrRetries catalogURL 2 cause), mkState (trace init ++ t) (0 + Z.to_nat 2))
    /\ attempts t = Z.to_nat 2
    /\ sleeps t = map (fun a => backoff 500 a) (count_from 1 (Z.to_nat 2))
    /\ (2 <= 0 -> cause = None /\ t = [])
    /\ (0 < 2 ->
        exists msg, cause = Some msg
                    /\ Fixture.down (0 + Nat.pred (Z.to_nat 2)) catalogURL = GetErr msg).
Proof.
  apply (doRequestWithRetry_exhausted Fixture.down catalogURL 2 500 init).
  intros j _. exists "connection refused". reflexivity.
Defined.

(** ** Category walker: the whole history of a walk *)

Section WalkRunFacts.

Variable net : nat -> string -> GetResult.
Variable Encoding : Type.
Variable DetermineEncoding : string -> Encoding.
Variable Windows1251 : Encoding.
Variable decode : Encoding -> string -> string.
Variable NewDocumentFromReader : string -> Document + string.
Variable TrimSpace : string -> string.
Variable ToLower : string -> string.

Abbreviation fetchPage_ :=
  (fetchPage net Encoding DetermineEncoding Windows1251 decode
     NewDocumentFromReader TrimSpace ToLower).
Abbreviation walk_loop_ :=
  (walk_loop net Encoding DetermineEncoding Windows1251 decode
     NewDocumentFromReader TrimSpace ToLower).
Abbreviation getProductsFromCategory_ :=
  (getProductsFromCategory net Encoding DetermineEncoding Windows1251 decode
     NewDocumentFromReader TrimSpace ToLower).

Lemma attempts_prefix category d p w t :
  attempts (page_prefix category d p w ++ t) = (S (attempts w) + attempts t)%nat.
Proof.
  unfold page_prefix. cbn [app]. change (?a :: ?b :: ?c :: w ++ t)
    with ([a; b; c] ++ w ++ t).
  rewrite !attempts_app. reflexivity.
Qed.

(** The whole history of one page fetch. *)
Lemma fetchPage_shape category d p st r st' :
  fetchPage_ category d p st = (r, st') ->
  exists w,
    wires w /\ (attempts w <= 1)%nat
    /\ st' = mkState (trace st ++ page_prefix category d p w ++ page_end r)
                     (gets st + S (attempts w)).
Proof.
  unfold fetchPage, sleep_ms, doRequestWithRetry. change (Z.to_nat 2) with 2%nat.
  unfold bind at 1. cbn [emit]. unfold bind at 1. cbn [emit trace gets].
  set (st1 := mkState _ (gets st)).
  destruct (retry_loop_wires net (pageURLOf category p) 2 d 2 0 None st1)
    as (t & E & W & Hle & Hhead).
  destruct (Hhead ltac:(discriminate)) as [w ->].
  assert (Ww : wires w) by (inversion W; assumption).
  assert (Hw : (attempts w <= 1)%nat).
  { change (attempts (EvGet (pageURLOf category p) :: w)) with (S (attempts w)) in Hle. lia. }
  change (attempts (EvGet (pageURLOf category p) :: w)) with (S (attempts w)) in E.
  intros Hrun. exists w. split; [exact Ww|]. split; [exact Hw|].
  unfold bind at 1 in Hrun.
  destruct (retry_loop net (pageURLOf category p) 2 d 2 0 None st1)
    as [[resp | e | msg] st2]; cbn [snd] in E; subst st2; subst st1; cbn [trace gets] in *.
  - unfold bind at 1 in Hrun.
    destruct (RespBody resp) as [b | msg]; cbn [getUTF8Reader ret fail] in Hrun.
    + unfold bind at 1, newDocument in Hrun.
      destruct (NewDocumentFromReader _) as [doc | msg]; cbn [ret fail] in Hrun.
      * unfold extractProductsFromPage, bind, emit, ret in Hrun. cbn [trace gets] in Hrun.
        injection Hrun as <- <-. cbn [page_end].
        unfold page_prefix. rewrite <- !app_assoc. reflexivity.
      * injection Hrun as <- <-. cbn [page_end]. unfold page_prefix.
        rewrite <- !app_assoc, app_nil_r. reflexivity.
    + injection Hrun as <- <-. cbn [page_end]. unfold page_prefix.
      rewrite <- !app_assoc, app_nil_r. reflexivity.
  - injection Hrun as <- <-. cbn [page_end]. unfold page_prefix.
    rewrite <- !app_assoc, app_nil_r. reflexivity.
  - injection Hrun as <- <-. cbn [page_end]. unfold page_prefix.
    rewrite <- !app_assoc, app_nil_r. reflexivity.
Qed.

(** Every run of the loop with turns enough writes a history of a whole
    walk, and counts its requests. *)
Lemma walk_loop_run category maxPages d n :
  forall p acc st,
    (pages_left maxPages p <= n)%nat ->
    exists t,
      (walk_loop_ category maxPages d n p acc st).2
        = mkState (trace st ++ t) (gets st + attempts t)
      /\ walk_run category maxPages d p t.
Proof.
  unfold pages_left.
  induction n as [|n IH]; intros p acc st Hn.
  - exists []. cbn [walk_loop]. destruct (Z.leb_spec p maxPages); [lia|].
    cbn. rewrite app_nil_r, Nat.add_0_r. destruct st.
    split; [reflexivity|]. constructor. lia.
  - cbn [walk_loop]. destruct (Z.leb_spec p maxPages) as [Hle | Hgt].
    2:{ exists []. cbn. rewrite app_nil_r, Nat.add_0_r. destruct st.
        split; [reflexivity|]. constructor. lia. }
    unfold bind at 1.
    destruct (fetchPage_ category d p st) as [r st1] eqn:Hpage.
    destruct (fetchPage_shape category d p st r st1 Hpage) as (w & W & Hw & ->).
    destruct r as [[products hasNextPage] | e | msg]; cbn [page_end].
    + unfold bind, emit. cbn [trace gets].
      destruct (negb hasNextPage || (len products =? 0)) eqn:Hstop.
      * eexists. cbn [ret snd]. rewrite <- !app_assoc. cbn [app].
        split.
        -- f_equal. rewrite attempts_prefix.
           change (attempts [EvLogExtract (len products) hasNextPage;
                             EvLogFound (len products) p (len (acc ++ products))]) with O.
           lia.
        -- apply (run_stop category maxPages d p w (len products) hasNextPage);
             try assumption.
           apply orb_true_iff in Hstop as [Hh | Hk].
           ++ left. destruct hasNextPage; [discriminate | reflexivity].
           ++ right. apply Z.eqb_eq. exact Hk.
      * destruct (IH (p + 1) (acc ++ products)
                    (mkState ((trace st ++ page_prefix category d p w
                               ++ [EvLogExtract (len products) hasNextPage])
                              ++ [EvLogFound (len products) p (len (acc ++ products))])
                             (gets st + S (attempts w)))) as (t' & E' & R'); [lia|].
        eexists. rewrite E'. cbn [trace gets]. rewrite <- !app_assoc. cbn [app].
        apply orb_false_iff in Hstop as [Hh Hk].
        destruct hasNextPage; [|discriminate].
        split.
        -- f_equal. rewrite attempts_prefix.
           change (attempts (EvLogExtract (len products) true
                             :: EvLogFound (len products) p (len (acc ++ products)) :: t'))
             with (attempts t'). lia.
        -- apply (run_next category maxPages d p w (len products)); try assumption.
           apply Z.eqb_neq. exact Hk.
    + exists (page_prefix category d p w). cbn [snd]. rewrite app_nil_r.
      split; [reflexivity | apply run_abort; assumption].
    + exists (page_prefix category d p w). cbn [snd]. rewrite app_nil_r.
      split; [reflexivity | apply run_abort; assumption].
Qed.

Lemma getProductsFromCategory_run category s e d st :
  exists t,
    (getProductsFromCategory_ category s e d st).2
      = mkState (trace st ++ t) (gets st + attempts t)
    /\ walk_run category (effectiveMaxPages e) d s t.
Proof. unfold getProductsFromCategory. apply walk_loop_run. lia. Qed.

Lemma wires_silent w :
  wires w -> pages_of w = [] /\ page_fetches w = O /\ extracts w = [].
Proof.
  induction 1 as [|e w He _ IH]; [repeat split|].
  destruct IH as (Hp & Hf & Hx).
  destruct e; cbn in He; try discriminate; repeat split; assumption.
Qed.

Lemma pages_of_app t1 t2 : pages_of (t1 ++ t2) = pages_of t1 ++ pages_of t2.
Proof. apply omap_app. Qed.

Lemma extracts_app t1 t2 : extracts (t1 ++ t2) = extracts t1 ++ extracts t2.
Proof. apply omap_app. Qed.

Lemma pages_of_prefix category d p w t :
  wires w ->
  pages_of (page_prefix category d p w ++ t) = (p, pageURLOf category p) :: pages_of t.
Proof.
  intros W. unfold page_prefix. cbn [app]. change (?a :: ?b :: ?c :: w ++ t)
    with ([a; b; c] ++ w ++ t).
  rewrite !pages_of_app. destruct (wires_silent w W) as (-> & _ & _). reflexivity.
Qed.

Lemma page_fetches_prefix category d p w t :
  wires w ->
  page_fetches (page_prefix category d p w ++ t) = S (page_fetches t).
Proof.
  intros W. unfold page_prefix. cbn [app]. change (?a :: ?b :: ?c :: w ++ t)
    with ([a; b; c] ++ w ++ t).
  rewrite !page_fetches_app. destruct (wires_silent w W) as (_ & -> & _). reflexivity.
Qed.

Lemma extracts_prefix category d p w t :
  wires w ->
  extracts (page_prefix category d p w ++ t) = extracts t.
Proof.
  intros W. unfold page_prefix. cbn [app]. change (?a :: ?b :: ?c :: w ++ t)
    with ([a; b; c] ++ w ++ t).
  rewrite !extracts_app. destruct (wires_silent w W) as (_ & _ & ->). reflexivity.
Qed.

(** The pages of a walk are consecutive from the page it stands before, and
    none lies above the ceiling. *)
Lemma walk_run_pages category maxPages d p t :
  walk_run category maxPages d p t ->
  pages_of t = map (fun q => (q, pageURLOf category q)) (count_from p (page_fetches t))
  /\ p + Z.of_nat (page_fetches t) - 1 <= Z.max maxPages (p - 1).
Proof.
  induction 1 as [p Hgt | p w Hle W Hw | p w found h total Hle W Hw Hstop
                  | p w found total rest Hle W Hw Hne R [IHp IHc]].
  - change (page_fetches []) with O. cbn [count_from map pages_of omap].
    split; [reflexivity | lia].
  - rewrite <- (app_nil_r (page_prefix _ _ _ _)).
    rewrite pages_of_prefix, page_fetches_prefix by exact W.
    change (page_fetches []) with O. cbn [count_from map pages_of omap].
    split; [reflexivity | lia].
  - rewrite pages_of_prefix, page_fetches_prefix by exact W.
    change (page_fetches [EvLogExtract found h; EvLogFound found p total]) with O.
    change (pages_of [EvLogExtract found h; EvLogFound found p total])
      with (@nil (Z * string)).
    cbn [count_from map]. split; [reflexivity | lia].
  - rewrite pages_of_prefix, page_fetches_prefix by exact W.
    change (pages_of (EvLogExtract found true :: EvLogFound found p total :: rest))
      with (pages_of rest).
    change (page_fetches (EvLogExtract found true :: EvLogFound found p total :: rest))
      with (page_fetches rest).
    rewrite IHp. cbn [count_from map]. split; [reflexivity | lia].
Qed.

(** A walk makes at most two requests for each page. *)
Lemma walk_run_attempts category maxPages d p t :
  walk_run category maxPages d p t ->
  (page_fetches t <= attempts t <= 2 * page_fetches t)%nat.
Proof.
  induction 1 as [p Hgt | p w Hle W Hw | p w found h total Hle W Hw Hstop
                  | p w found total rest Hle W Hw Hne R IH].
  - change (page_fetches []) with O. change (attempts []) with O. lia.
  - rewrite <- (app_nil_r (page_prefix _ _ _ _)).
    rewrite attempts_prefix, page_fetches_prefix by exact W.
    change (page_fetches []) with O. change (attempts []) with O. lia.
  - rewrite attempts_prefix, page_fetches_prefix by exact W.
    change (page_fetches [EvLogExtract found h; EvLogFound found p total]) with O.
    change (attempts [EvLogExtract found h; EvLogFound found p total]) with O. lia.
  - rewrite attempts_prefix, page_fetches_prefix by exact W.
    change (attempts (EvLogExtract found true :: EvLogFound found p total :: rest))
      with (attempts rest).
    change (page_fetches (EvLogExtract found true :: EvLogFound found p total :: rest))
      with (page_fetches rest).
    lia.
Qed.

Lemma each_followed_split P t :
  each_followed P t -> forall t1 e t2, t = t1 ++ e :: t2 -> P e t2.
Proof.
  intros H t1. revert t H. induction t1 as [|a t1 IH]; intros t H e t2 ->.
  - exact (proj1 H).
  - exact (IH _ (proj2 H) e t2 eq_refl).
Qed.

Lemma each_followed_wires P w t :
  wires w -> (forall e rest, wire e = true -> P e rest) ->
  each_followed P t -> each_followed P (w ++ t).
Proof.
  intros W HP Ht. induction W as [|e w He _ IH]; [exact Ht|].
  cbn. split; [apply HP; exact He | exact IH].
Qed.

Lemma walk_run_delay category maxPages d p t :
  walk_run category maxPages d p t -> each_followed (delay_first category d) t.
Proof.
  assert (HP : forall e rest, wire e = true -> delay_first category d e rest).
  { intros [] rest He; cbn in *; try discriminate; exact I. }
  induction 1 as [p Hgt | p w Hle W Hw | p w found h total Hle W Hw Hstop
                  | p w found total rest Hle W Hw Hne R IH].
  - exact I.
  - unfold page_prefix. cbn. repeat split; eauto.
    rewrite <- (app_nil_r w). apply each_followed_wires; [assumption | assumption | exact I].
  - unfold page_prefix. cbn [app each_followed delay_first]. repeat split; eauto.
    apply each_followed_wires; [assumption | assumption | cbn; tauto].
  - unfold page_prefix. cbn [app each_followed delay_first]. repeat split; eauto.
    apply each_followed_wires; [assumption | assumption | cbn; tauto].
Qed.

Lemma walk_run_verdict category maxPages d p t :
  walk_run category maxPages d p t -> each_followed verdict_last t.
Proof.
  assert (HP : forall e rest, wire e = true -> verdict_last e rest).
  { intros [] rest He; cbn in *; try discriminate; exact I. }
  induction 1 as [p Hgt | p w Hle W Hw | p w found h total Hle W Hw Hstop
                  | p w found total rest Hle W Hw Hne R IH].
  - exact I.
  - unfold page_prefix. cbn. repeat split.
    rewrite <- (app_nil_r w). apply each_followed_wires; [assumption | assumption | exact I].
  - unfold page_prefix. cbn [app each_followed verdict_last]. repeat split.
    apply each_followed_wires; [assumption | assumption |].
    cbn. repeat split. intros _. eauto.
  - unfold page_prefix. cbn [app each_followed verdict_last]. repeat split.
    apply each_followed_wires; [assumption | assumption |].
    cbn. repeat split; [|exact IH]. intros [Hh | Hk]; [discriminate | contradiction].
Qed.

(** A walk that is never stopped, by a failure, by the oracle or by an empty
    page, fetches every page up to the ceiling. *)
Lemma walk_run_complete category maxPages d p t :
  walk_run category maxPages d p t ->
  length (extracts t) = page_fetches t ->
  Forall (fun x => x.2 = true /\ x.1 <> 0) (extracts t) ->
  page_fetches t = pages_left maxPages p.
Proof.
  unfold pages_left.
  induction 1 as [p Hgt | p w Hle W Hw | p w found h total Hle W Hw Hstop
                  | p w found total rest Hle W Hw Hne R IH]; intros Hlen Hall.
  - cbn. lia.
  - rewrite <- (app_nil_r (page_prefix _ _ _ _)) in Hlen.
    rewrite extracts_prefix, page_fetches_prefix in Hlen by exact W. discriminate Hlen.
  - rewrite extracts_prefix in Hall by exact W. cbn in Hall.
    inversion Hall as [|? ? [Hh Hk] _]; subst. cbn in Hh, Hk.
    destruct Hstop; congruence.
  - rewrite extracts_prefix in Hlen, Hall by exact W.
    rewrite page_fetches_prefix in Hlen |- * by exact W.
    change (page_fetches (EvLogExtract found true :: EvLogFound found p total :: rest))
      with (page_fetches rest) in *.
    change (extracts (EvLogExtract found true :: EvLogFound found p total :: rest))
      with ((found, true) :: extracts rest) in *.
    cbn [length] in Hlen. inversion Hall; subst.
    rewrite IH by (try lia; assumption). lia.
Qed.

(** X4.  A walk fetches consecutive pages, starting at the start page: the
    [k] pages it fetches are [s], [s + 1], ..., [s + k - 1], each under the
    URL the walker builds for its index, and none lies above the ceiling. *)
Theorem getProductsFromCategory_pages_consecutive category s e d st :
  exists t,
    trace (getProductsFromCategory_ category s e d st).2 = trace st ++ t
    /\ pages_of t = map (fun q => (q, pageURLOf category q)) (count_from s (page_fetches t))
    /\ s + Z.of_nat (page_fetches t) - 1 <= Z.max (effectiveMaxPages e) (s - 1).
Proof.
  destruct (getProductsFromCategory_run category s e d st) as (t & E & R).
  exists t. rewrite E. split; [reflexivity|]. apply (walk_run_pages _ _ _ _ _ R).
Qed.

Lemma requests_until_page_wires w rest :
  wires w ->
  requests_until_page (w ++ rest) = (attempts w + requests_until_page rest)%nat.
Proof.
  induction 1 as [|e w He _ IH]; [reflexivity|].
  destruct e; cbn in He; try discriminate; cbn [app requests_until_page].
  - change (attempts (EvGet url :: w)) with (S (attempts w)). rewrite IH. reflexivity.
  - exact IH.
  - exact IH.
Qed.

Lemma requests_per_page_wires w rest :
  wires w -> requests_per_page (w ++ rest) = requests_per_page rest.
Proof.
  induction 1 as [|e w He _ IH]; [reflexivity|].
  destruct e; cbn in He; try discriminate; exact IH.
Qed.

Lemma requests_per_page_prefix category d p w t :
  wires w ->
  requests_per_page (page_prefix category d p w ++ t)
  = (S (attempts w) + requests_until_page t)%nat :: requests_per_page t.
Proof.
  intros W. unfold page_prefix. cbn [app requests_per_page requests_until_page].
  rewrite (requests_until_page_wires w t W), (requests_per_page_wires w t W).
  reflexivity.
Qed.

(** A walk that goes on begins with the walker's line of its next page. *)
Lemma walk_run_head category maxPages d p t :
  walk_run category maxPages d p t -> requests_until_page t = O.
Proof. destruct 1; reflexivity. Qed.

(** The requests of a walk, page by page. *)
Lemma walk_run_per_page category maxPages d p t :
  walk_run category maxPages d p t ->
  length (requests_per_page t) = page_fetches t
  /\ Forall (fun n => (1 <= n <= 2)%nat) (requests_per_page t)
  /\ attempts t = sum_list (requests_per_page t).
Proof.
  induction 1 as [p Hgt | p w Hle W Hw | p w found h total Hle W Hw Hstop
                  | p w found total rest Hle W Hw Hne R IH].
  - repeat split. constructor.
  - rewrite <- (app_nil_r (page_prefix _ _ _ _)).
    rewrite requests_per_page_prefix, attempts_prefix, page_fetches_prefix by exact W.
    cbn [requests_until_page requests_per_page length].
    change (page_fetches []) with O. change (attempts []) with O.
    change (sum_list [(S (attempts w) + 0)%nat]) with (S (attempts w) + 0 + 0)%nat.
    split; [reflexivity|]. split; [|lia].
    constructor; [lia | constructor].
  - rewrite requests_per_page_prefix, attempts_prefix, page_fetches_prefix by exact W.
    cbn [requests_until_page requests_per_page length].
    change (page_fetches [EvLogExtract found h; EvLogFound found p total]) with O.
    change (attempts [EvLogExtract found h; EvLogFound found p total]) with O.
    change (sum_list [(S (attempts w) + 0)%nat]) with (S (attempts w) + 0 + 0)%nat.
    split; [reflexivity|]. split; [|lia].
    constructor; [lia | constructor].
  - destruct IH as (Hlen & Hall & Hsum).
    rewrite requests_per_page_prefix, attempts_prefix, page_fetches_prefix by exact W.
    cbn [requests_until_page requests_per_page length].
    rewrite (walk_run_head _ _ _ _ _ R).
    change (page_fetches (EvLogExtract found true :: EvLogFound found p total :: rest))
      with (page_fetches rest).
    change (attempts (EvLogExtract found true :: EvLogFound found p total :: rest))
      with (attempts rest).
    change (sum_list ((S (attempts w) + 0)%nat :: requests_per_page rest))
      with (S (attempts w) + 0 + sum_list (requests_per_page rest))%nat.
    split; [congruence|]. split; [|lia].
    constructor; [lia | exact Hall].
Qed.

(** X5.  A walk makes at least one and at most two requests for every page
    it fetches: counted from each walker's line to the next, the requests
    are one or two, and every request of the walk is counted so. *)
Theorem getProductsFromCategory_attempts category s e d st :
  exists t,
    (getProductsFromCategory_ category s e d st).2
      = mkState (trace st ++ t) (gets st + attempts t)
    /\ length (requests_per_page t) = page_fetches t
    /\ Forall (fun n => (1 <= n <= 2)%nat) (requests_per_page t)
    /\ attempts t = sum_list (requests_per_page t).
Proof.
  destruct (getProductsFromCategory_run category s e d st) as (t & E & R).
  exists t. split; [exact E | apply (walk_run_per_page _ _ _ _ _ R)].
Qed.

(** X6.  Before every page it fetches, the first one too, the walker sleeps
    the delay: in the history of a walk each walker's line for a page is
    followed at once by the sleep of [delayMs] and by the request of that
    page's URL. *)
Theorem getProductsFromCategory_delay_first category s e d st :
  exists t,
    trace (getProductsFromCategory_ category s e d st).2 = trace st ++ t
    /\ forall t1 q url t2,
        t = t1 ++ EvLogPage q url :: t2 ->
        url = pageURLOf category q
        /\ exists t3, t2 = EvSleep (wrap64 (d * millisecond)) :: EvGet url :: t3.
Proof.
  destruct (getProductsFromCategory_run category s e d st) as (t & E & R).
  exists t. rewrite E. split; [reflexivity|].
  intros t1 q url t2 Ht.
  exact (each_followed_split _ _ (walk_run_delay _ _ _ _ _ R) t1 (EvLogPage q url) t2 Ht).
Qed.

(** X7.  When the oracle says that no page follows, the walk ends with that
    page: the extractor's line with the verdict "no" is followed by the
    walker's line for the page and by nothing else. *)
Theorem getProductsFromCategory_oracle_no_ends category s e d st :
  exists t,
    (getProductsFromCategory_ category s e d st).2
      = mkState (trace st ++ t) (gets st + attempts t)
    /\ forall t1 found t2,
        t = t1 ++ EvLogExtract found false :: t2 ->
        exists q total, t2 = [EvLogFound found q total].
Proof.
  destruct (getProductsFromCategory_run category s e d st) as (t & E & R).
  exists t. split; [exact E|].
  intros t1 found t2 Ht.
  apply (each_followed_split _ _ (walk_run_verdict _ _ _ _ _ R) t1
           (EvLogExtract found false) t2 Ht).
  left. reflexivity.
Qed.

(** X8.  A walk ends for a reason: when every page it fetched was extracted,
    held records and drew a "yes" from the oracle, it has fetched every page
    from the start page to the ceiling. *)
Theorem getProductsFromCategory_reaches_ceiling category s e d st :
  exists t,
    trace (getProductsFromCategory_ category s e d st).2 = trace st ++ t
    /\ (length (extracts t) = page_fetches t ->
        Forall (fun x => x.2 = true /\ x.1 <> 0) (extracts t) ->
        page_fetches t = pages_left (effectiveMaxPages e) s).
Proof.
  destruct (getProductsFromCategory_run category s e d st) as (t & E & R).
  exists t. rewrite E. split; [reflexivity|].
  apply (walk_run_complete _ _ _ _ _ R).
Qed.

Lemma total_found_app t1 t2 : total_found (t1 ++ t2) = total_found t1 + total_found t2.
Proof.
  unfold total_found. rewrite extracts_app, map_app, foldr_app.
  induction (map fst (extracts t1)) as [|x l IH]; cbn; [reflexivity | rewrite IH; lia].
Qed.

Lemma total_found_prefix category d p w t :
  wires w -> total_found (page_prefix category d p w ++ t) = total_found t.
Proof. intros W. unfold total_found. rewrite extracts_prefix by exact W. reflexivity. Qed.

Lemma fetchPage_no_panic category d p : no_panic (fetchPage_ category d p).
Proof.
  unfold fetchPage, sleep_ms.
  apply no_panic_bind; [apply no_panic_emit|]. intros _.
  apply no_panic_bind; [apply no_panic_emit|]. intros _.
  apply no_panic_bind; [apply no_panic_retry_loop|]. intros resp.
  apply no_panic_bind; [apply no_panic_getUTF8Reader|]. intros text.
  apply no_panic_bind; [apply no_panic_newDocument|]. intros doc.
  unfold extractProductsFromPage.
  apply no_panic_bind; [apply no_panic_emit|]. intros _.
  apply no_panic_ret.
Qed.

(** The loop only appends to the records it has, as many as the extractor
    reported, and ends with records or with an error. *)
Lemma walk_loop_result category maxPages d n :
  forall p acc st r st',
    walk_loop_ category maxPages d n p acc st = (r, st') ->
    exists t,
      trace st' = trace st ++ t
      /\ match r with
         | Ok out => exists new, out = acc ++ new /\ len new = total_found t
         | Err _ => True
         | Panic _ => False
         end.
Proof.
  induction n as [|n IH]; intros p acc st r st' Hrun.
  - cbn [walk_loop] in Hrun. exists [].
    destruct (p <=? maxPages); cbn in Hrun; injection Hrun as <- <-;
      rewrite app_nil_r; (split; [reflexivity|]); exists []; rewrite app_nil_r;
      split; reflexivity.
  - cbn [walk_loop] in Hrun. destruct (p <=? maxPages).
    2:{ cbn in Hrun. injection Hrun as <- <-. exists []. rewrite app_nil_r.
        split; [reflexivity|]. exists []. rewrite app_nil_r. split; reflexivity. }
    unfold bind at 1 in Hrun.
    destruct (fetchPage_ category d p st) as [r1 st1] eqn:Hpage.
    destruct (fetchPage_shape category d p st r1 st1 Hpage) as (w & W & Hw & ->).
    destruct r1 as [[products hasNextPage] | e | msg]; cbn [page_end] in Hrun.
    + unfold bind, emit in Hrun. cbn [trace gets] in Hrun.
      destruct (negb hasNextPage || (len products =? 0)).
      * cbn [ret] in Hrun. injection Hrun as <- <-.
        exists (page_prefix category d p w
                ++ [EvLogExtract (len products) hasNextPage;
                    EvLogFound (len products) p (len (acc ++ products))]).
        split; [cbn [trace app]; unfold page_prefix;
                repeat (progress (rewrite <- ?app_assoc; cbn [app])); reflexivity|].
        exists products. split; [reflexivity|].
        rewrite total_found_prefix by exact W. unfold total_found. cbn. lia.
      * destruct (IH _ _ _ _ _ Hrun) as (t' & E' & Hr).
        exists (page_prefix category d p w
                ++ [EvLogExtract (len products) hasNextPage;
                    EvLogFound (len products) p (len (acc ++ products))] ++ t').
        rewrite E'.
        split; [cbn [trace app]; unfold page_prefix;
                repeat (progress (rewrite <- ?app_assoc; cbn [app])); reflexivity|].
        destruct r as [out | e | msg]; [|exact I | exact Hr].
        destruct Hr as (new & -> & Hlen). exists (products ++ new).
        rewrite app_assoc. split; [reflexivity|].
        rewrite total_found_prefix by exact W.
        rewrite total_found_app, <- Hlen. unfold len. rewrite length_app.
        unfold total_found. cbn. lia.
    + injection Hrun as <- <-. exists (page_prefix category d p w). cbn [trace].
      rewrite app_nil_r. split; [reflexivity | exact I].
    + injection Hrun as <- <-. exists (page_prefix category d p w). cbn [trace].
      rewrite app_nil_r. split; [reflexivity|].
      exfalso. apply (fetchPage_no_panic category d p st msg).
      rewrite Hpage. reflexivity.
Qed.

(** X9.  A walk never panics; when it returns records, they are as many as
    the extractor reported over the pages of the walk. *)
Theorem getProductsFromCategory_result category s e d st :
  exists t,
    trace (getProductsFromCategory_ category s e d st).2 = trace st ++ t
    /\ (forall msg, (getProductsFromCategory_ category s e d st).1 <> Panic msg)
    /\ (forall products,
          (getProductsFromCategory_ category s e d st).1 = Ok products ->
          len products = total_found t).
Proof.
  destruct (getProductsFromCategory_ category s e d st) as [r st'] eqn:Hrun.
  unfold getProductsFromCategory in Hrun.
  destruct (walk_loop_result _ _ _ _ _ _ _ _ _ Hrun) as (t & E & Hr).
  exists t. cbn [fst snd]. split; [exact E|]. split.
  - intros msg ->. exact Hr.
  - intros products ->. destruct Hr as (new & Hnew & Hlen).
    cbn in Hnew. subst new. exact Hlen.
Qed.

End WalkRunFacts.

(** ** Pagination oracle and page extraction: what the callbacks amount to *)

Section ExtractFacts.

Variable TrimSpace : string -> string.
Variable ToLower : string -> string.

Lemma heuristic2_existsb doc :
  heuristic2 TrimSpace ToLower doc =
  existsb (fun selector =>
             existsb (control_fires TrimSpace ToLower)
               (Find (docFind doc selector) "a, span, div, button"))
    paginationSelectors.
Proof.
  unfold heuristic2.
  enough (H : forall l h,
             fold_left
               (fun h selector =>
                  let paginationElement := docFind doc selector in
                  if 0 <? len paginationElement
                  then EachFlag (control_fires TrimSpace ToLower)
                         (Find paginationElement "a, span, div, button") h
                  else h) l h
             = h || existsb (fun selector =>
                               existsb (control_fires TrimSpace ToLower)
                                 (Find (docFind doc selector) "a, span, div, button")) l)
    by apply H.
  induction l as [|selector l IH]; intros h; cbn [fold_left existsb].
  - rewrite orb_false_r. reflexivity.
  - rewrite IH. cbv zeta. rewrite EachFlag_existsb.
    destruct (docFind doc selector) as [|n sel]; cbn [len length Find flat_map existsb].
    + cbn. rewrite orb_false_r. reflexivity.
    + change (0 <? Z.of_nat (S (length sel))) with true. cbv iota.
      rewrite orb_assoc. reflexivity.
Qed.

(** X10.  The cascade of the oracle, with its flag, its callbacks that
    return early and its guards, is the plain disjunction of the five
    heuristics, each an existence test over the elements it visits. *)
Theorem hasNextPageOf_disjunction doc category :
  hasNextPageOf TrimSpace ToLower doc category =
  existsb button_fires (docFind doc "[data-pagination-button], [data-pagination-more]")
  || existsb (fun selector =>
                existsb (control_fires TrimSpace ToLower)
                  (Find (docFind doc selector) "a, span, div, button"))
       paginationSelectors
  || existsb (link_fires category) (docFind doc "a")
  || heuristic4 doc
  || existsb script_fires (docFind doc "script").
Proof.
  unfold hasNextPageOf. rewrite heuristic2_existsb.
  unfold heuristic1, heuristic3, heuristic5. rewrite !EachFlag_existsb. cbn [orb].
  destruct (existsb button_fires _); cbn [negb orb]; [reflexivity|].
  destruct (existsb (fun selector => _) paginationSelectors); cbn [negb orb]; [reflexivity|].
  destruct (existsb (link_fires category) _); cbn [negb orb]; [reflexivity|].
  destruct (heuristic4 doc); reflexivity.
Qed.

Lemma prefix_app a b : String.prefix a (a +:+ b) = true.
Proof.
  induction a as [|c a IH]; [destruct b; reflexivity|].
  change (String.prefix (String c a) (String c a +:+ b))
    with (match ascii_dec c c with
          | left _ => String.prefix a (a +:+ b)
          | right _ => false
          end).
  destruct (ascii_dec c c); [exact IH | contradiction].
Qed.

Lemma productsOfPage_omap doc category :
  productsOfPage TrimSpace doc category =
  omap (productOfCard TrimSpace category) (docFind doc "[data-product-id]").
Proof.
  unfold productsOfPage.
  enough (H : forall cards acc,
             fold_left
               (fun products s =>
                  match productOfCard TrimSpace category s with
                  | Some product => products ++ [product]
                  | None => products
                  end) cards acc
             = acc ++ omap (productOfCard TrimSpace category) cards)
    by apply H.
  induction cards as [|s cards IH]; intros acc; cbn [fold_left omap list_omap].
  - rewrite app_nil_r. reflexivity.
  - rewrite IH. destruct (productOfCard TrimSpace category s).
    + rewrite <- app_assoc. reflexivity.
    + reflexivity.
Qed.

(** X11.  The records of a page are those of its cards that have the
    attribute [data-product-id], be its value empty, and a name link with
    a target, in the order of the cards.  The id of a record is the value
    of the attribute, and its URL the base URL in front of the target.
    Each record bears the name of the category and the base URL in front
    of its image, and has no description: the enrichment pass skips none
    of them. *)
Theorem productsOfPage_records doc category :
  productsOfPage TrimSpace doc category
    = omap (productOfCard TrimSpace category) (docFind doc "[data-product-id]")
  /\ (forall s,
        productOfCard TrimSpace category s = None <->
        Attr [s] "data-product-id" = None
        \/ Attr (Find [s] ".productCard__name") "href" = None)
  /\ (forall s product,
        productOfCard TrimSpace category s = Some product ->
        Attr [s] "data-product-id" = Some (ID product)
        /\ exists href,
            Attr (Find [s] ".productCard__name") "href" = Some href
            /\ URL product = baseURL +:+ href)
  /\ (length (productsOfPage TrimSpace doc category)
      <= length (docFind doc "[data-product-id]"))%nat
  /\ Forall (fun product =>
               Category_ product = CatName category
               /\ Description product = ""
               /\ String.prefix baseURL (URL product) = true
               /\ String.prefix baseURL (ImageURL product) = true
               /\ alreadyEnriched product = false)
       (productsOfPage TrimSpace doc category).
Proof.
  rewrite productsOfPage_omap. split; [reflexivity|]. split; [|split; [|split]].
  - intros s. unfold productOfCard.
    destruct (Attr [s] "data-product-id") as [productID|].
    + destruct (Attr (Find [s] ".productCard__name") "href") as [url|].
      * split; [discriminate | intros [H | H]; discriminate].
      * split; [right; reflexivity | reflexivity].
    + split; [left; reflexivity | reflexivity].
  - intros s product. unfold productOfCard.
    destruct (Attr [s] "data-product-id") as [productID|]; [|discriminate].
    destruct (Attr (Find [s] ".productCard__name") "href") as [url|]; [|discriminate].
    intros [= <-]. cbn [ID URL]. split; [reflexivity|]. exists url. split; reflexivity.
  - induction (docFind doc "[data-product-id]") as [|s cards IH]; [reflexivity|].
    cbn [omap list_omap length].
    destruct (productOfCard TrimSpace category s); cbn [length]; lia.
  - apply Forall_forall. intros product Hin.
    apply list_elem_of_omap in Hin as (s & _ & Hs).
    unfold productOfCard in Hs.
    destruct (Attr [s] "data-product-id") as [productID|]; [|discriminate].
    destruct (Attr (Find [s] ".productCard__name") "href") as [url|]; [|discriminate].
    injection Hs as <-. cbn [Category_ Description URL ImageURL].
    repeat split; try apply prefix_app.
    unfold alreadyEnriched. cbn [Description Features]. apply andb_false_r.
Qed.

End ExtractFacts.

(** A card whose attribute is there and empty gives a record with the empty
    id, which the deduplicator drops later. *)
Example productsOfPage_empty_id :
  map ID (productsOfPage id (Fixture.page [Fixture.card ""; Fixture.card "7"] [])
            Fixture.cat)
  = [""; "7"].
Proof. vm_compute. reflexivity. Qed.

Section Heuristic3Facts.

Lemma prefix_empty_r sep : sep <> "" -> String.prefix sep "" = false.
Proof. destruct sep; [congruence | reflexivity]. Qed.

(** A string that contains the separator splits into two segments at
    least. *)
Lemma Split_two sep s :
  sep <> "" -> Contains s sep = true -> 1 < len (Split s sep).
Proof.
  intros Hsep. unfold Split, len.
  generalize EmptyString as cur.
  induction s as [|c s IH]; intros cur Hc.
  - cbn [Contains] in Hc. rewrite (prefix_empty_r sep Hsep) in Hc. discriminate.
  - cbn [Contains] in Hc. cbn [split_from].
    destruct (String.prefix sep (String c s)).
    + pose proof (GoStringFacts.split_from_nonempty sep s
                    (Nat.pred (String.length sep)) EmptyString) as Hne.
      destruct (split_from sep s (Nat.pred (String.length sep)) EmptyString);
        [congruence|]. cbn [length]. lia.
    + apply IH. exact Hc.
Qed.

Lemma link_fires_without_index category s :
  Contains (CatURL category) "PAGEN_2=" = false ->
  link_fires category s = is_page_link s.
Proof.
  intros Hurl. unfold link_fires, is_page_link. rewrite Hurl.
  destruct (Attr [s] "href") as [href|]; [|reflexivity].
  destruct (Contains href "PAGEN_2="); reflexivity.
Qed.

Lemma link_fires_with_index category s :
  Contains (CatURL category) "PAGEN_2=" = true ->
  link_fires category s = true <->
  exists href cur next,
    Attr [s] "href" = Some href
    /\ Contains href "PAGEN_2=" = true
    /\ pageIndexOf (Split (CatURL category) "PAGEN_2=") = Some cur
    /\ pageIndexOf (Split href "PAGEN_2=") = Some next
    /\ cur < next.
Proof.
  intros Hurl. unfold link_fires. rewrite Hurl.
  assert (Hparts : (1 <? len (Split (CatURL category) "PAGEN_2=")) = true).
  { apply Z.ltb_lt. apply Split_two; [discriminate | exact Hurl]. }
  rewrite Hparts. split.
  - destruct (Attr [s] "href") as [href|]; [|discriminate].
    destruct (Contains href "PAGEN_2=") eqn:Hhref; [|discriminate].
    destruct (1 <? len (Split href "PAGEN_2=")); [|discriminate].
    destruct (pageIndexOf (Split (CatURL category) "PAGEN_2=")) as [cur|]; [|discriminate].
    destruct (pageIndexOf (Split href "PAGEN_2=")) as [next|] eqn:Hnext; [|discriminate].
    intros Hlt. apply Z.ltb_lt in Hlt. exists href, cur, next. auto.
  - intros (href & cur & next & -> & Hhref & -> & Hnext & Hlt).
    rewrite Hhref, Hnext.
    assert (Hp : (1 <? len (Split href "PAGEN_2=")) = true).
    { apply Z.ltb_lt. apply Split_two; [discriminate | exact Hhref]. }
    rewrite Hp. apply Z.ltb_lt. exact Hlt.
Qed.

(** X12.  Heuristic 3 against the URL it is given.  When that URL carries no
    page-index parameter, it fires exactly when the page has a link with
    one.  When the URL carries one, it fires exactly when both the index of
    the URL and that of some link are decimal numbers and the link's is the
    larger: a link to the same or to an earlier page never fires it, and
    neither does any link when the URL's index is not a number. *)
Theorem heuristic3_against_its_url doc category :
  (Contains (CatURL category) "PAGEN_2=" = false ->
   heuristic3 doc category = existsb is_page_link (docFind doc "a"))
  /\ (Contains (CatURL category) "PAGEN_2=" = true ->
      (heuristic3 doc category = true <->
       exists s href cur next,
         In s (docFind doc "a")
         /\ Attr [s] "href" = Some href
         /\ Contains href "PAGEN_2=" = true
         /\ pageIndexOf (Split (CatURL category) "PAGEN_2=") = Some cur
         /\ pageIndexOf (Split href "PAGEN_2=") = Some next
         /\ cur < next)).
Proof.
  split; [apply heuristic3_without_index|].
  intros Hurl. unfold heuristic3. rewrite EachFlag_existsb. cbn [orb].
  rewrite existsb_exists. split.
  - intros (s & Hin & Hs).
    apply (link_fires_with_index category s Hurl) in Hs
      as (href & cur & next & H1 & H2 & H3 & H4 & H5).
    exists s, href, cur, next. auto 10.
  - intros (s & href & cur & next & Hin & H1 & H2 & H3 & H4 & H5).
    exists s. split; [exact Hin|].
    apply (link_fires_with_index category s Hurl). exists href, cur, next. auto.
Qed.

End Heuristic3Facts.

Example heuristic3_page_two :
  let category := mkCategory "Test" "https://www.stanki.ru/catalog/x_y/?PAGEN_2=2" in
  pageIndexOf (Split (CatURL category) "PAGEN_2=") = Some 2
  /\ heuristic3 (Fixture.page [] ["?PAGEN_2=1"; "?PAGEN_2=2"]) category = false
  /\ heuristic3 (Fixture.page [] ["?PAGEN_2=1"; "?PAGEN_2=3&sort=asc"]) category = true.
Proof. cbv zeta. repeat split; vm_compute; reflexivity. Qed.

(** ** Detail page: where the id comes from *)

Section DetailIdFacts.

Variable net : nat -> string -> GetResult.
Variable Encoding : Type.
Variable DetermineEncoding : string -> Encoding.
Variable Windows1251 : Encoding.
Variable decode : Encoding -> string -> string.
Variable NewDocumentFromReader : string -> Document + string.
Variable TrimSpace : string -> string.

Abbreviation getProductDetails_ :=
  (getProductDetails net Encoding DetermineEncoding Windows1251 decode
     NewDocumentFromReader TrimSpace).

Lemma split_from_slash_hit s cur :
  split_from "/" (String "/" s) O cur = cur :: split_from "/" s O EmptyString.
Proof.
  cbn [split_from]. rewrite GoStringFacts.prefix_slash. reflexivity.
Qed.

Lemma split_from_slash_miss c s cur :
  Ascii.eqb c "/" = false ->
  split_from "/" (String c s) O cur = split_from "/" s O (cur +:+ String c EmptyString).
Proof.
  intros Hc. cbn [split_from]. rewrite GoStringFacts.prefix_slash, Hc. reflexivity.
Qed.

Lemma append_cons a s1 s2 : String a s1 +:+ s2 = String a (s1 +:+ s2).
Proof. reflexivity. Qed.

Lemma append_nil s : "" +:+ s = s.
Proof. reflexivity. Qed.

Lemma append_snoc cur c s : (cur +:+ String c EmptyString) +:+ s = cur +:+ String c s.
Proof.
  induction cur as [|a cur IH]; [reflexivity|].
  rewrite !append_cons. f_equal. exact IH.
Qed.

Lemma append_empty_r s : s +:+ "" = s.
Proof.
  induction s as [|a s IH]; [reflexivity|].
  rewrite append_cons. f_equal. exact IH.
Qed.

(** A segment without a slash, closed by one, is read whole. *)
Lemma split_from_segment seg :
  forall cur,
    Contains seg "/" = false ->
    split_from "/" (seg +:+ "/") O cur = [cur +:+ seg; ""].
Proof.
  induction seg as [|c seg IH]; intros cur Hc.
  - rewrite append_nil, split_from_slash_hit, append_empty_r. reflexivity.
  - cbn [Contains] in Hc. rewrite GoStringFacts.prefix_slash in Hc.
    destruct (Ascii.eqb c "/") eqn:Hch; [discriminate|].
    rewrite append_cons, split_from_slash_miss by exact Hch.
    rewrite IH by exact Hc. rewrite append_snoc. reflexivity.
Qed.

Lemma index_cons {A} (x : A) l i :
  0 <= i -> index (x :: l) (i + 1) = index l i.
Proof.
  intros Hi. unfold index, len. cbn [length].
  destruct (Z.leb_spec 0 i); [|lia].
  destruct (Z.leb_spec 0 (i + 1)); [|lia].
  destruct (Z.ltb_spec i (Z.of_nat (length l))),
           (Z.ltb_spec (i + 1) (Z.of_nat (S (length l)))); try lia; cbn [andb];
    [|reflexivity].
  replace (Z.to_nat (i + 1)) with (S (Z.to_nat i)) by lia. reflexivity.
Qed.

Lemma index_nonneg {A} (l : list A) i x : index l i = Some x -> 0 <= i.
Proof.
  unfold index. destruct (Z.leb_spec 0 i); [auto | discriminate].
Qed.

(** The second-to-last segment of a URL that ends in ["/seg/"] is [seg]. *)
Lemma split_from_second_to_last a seg :
  Contains seg "/" = false ->
  forall cur,
    index (split_from "/" (a +:+ "/" +:+ seg +:+ "/") O cur)
          (len (split_from "/" (a +:+ "/" +:+ seg +:+ "/") O cur) - 2) = Some seg.
Proof.
  intros Hseg.
  induction a as [|c a IH]; intros cur.
  - rewrite append_nil, append_cons, append_nil, split_from_slash_hit.
    rewrite (split_from_segment seg "" Hseg). reflexivity.
  - rewrite append_cons. destruct (Ascii.eqb c "/") eqn:Hc.
    + apply Ascii.eqb_eq in Hc. subst c. rewrite split_from_slash_hit.
      specialize (IH EmptyString).
      set (L := split_from "/" (a +:+ "/" +:+ seg +:+ "/") O EmptyString) in *.
      pose proof (index_nonneg _ _ _ IH) as Hi.
      replace (len (cur :: L) - 2) with ((len L - 2) + 1)
        by (unfold len; cbn [length]; lia).
      rewrite index_cons by exact Hi. exact IH.
    + rewrite split_from_slash_miss by exact Hc. apply IH.
Qed.

Lemma Split_second_to_last a seg :
  Contains seg "/" = false ->
  index (Split (a +:+ "/" +:+ seg +:+ "/") "/")
        (len (Split (a +:+ "/" +:+ seg +:+ "/") "/") - 2) = Some seg.
Proof. intros Hseg. apply split_from_second_to_last. exact Hseg. Qed.

(** What a successful detail fetch returns: the id is the second-to-last
    segment of the URL, and only the description and the features come from
    the page. *)
Lemma getProductDetails_ok url d st product st' :
  getProductDetails_ url d st = (Ok product, st') ->
  index (Split url "/") (len (Split url "/") - 2) = Some (ID product)
  /\ Name product = "" /\ URL product = "" /\ Price product = ""
  /\ ImageURL product = "" /\ Category_ product = "".
Proof.
  unfold getProductDetails, bind, sleep_ms, emit.
  destruct (doRequestWithRetry net url 2 d _) as [[resp | e | msg] st1]; try discriminate.
  destruct (negb (StatusCode resp =? 200)); [discriminate|].
  destruct (RespBody resp) as [b | msg]; cbn [getUTF8Reader ret fail]; [|discriminate].
  unfold newDocument.
  destruct (NewDocumentFromReader _) as [doc | msg]; cbn [ret fail]; [|discriminate].
  assert (Hpos : (0 <? len (Split url "/")) = true).
  { apply Z.ltb_lt. unfold len.
    pose proof (GoStringFacts.split_from_nonempty "/" url O EmptyString) as Hne.
    unfold Split. destruct (split_from "/" url O EmptyString); [congruence|].
    cbn [length]. lia. }
  rewrite Hpos.
  destruct (index (Split url "/") (len (Split url "/") - 2)) as [id|];
    cbn [ret panic]; [|discriminate].
  intros [= <- _]. cbn. repeat split.
Qed.

(** X13.  On a product URL that ends in ["/seg/"], a successful detail fetch
    returns a record whose id is [seg]; its name, URL, price, image and
    category are empty, only the description and the features being read
    from the page. *)
Theorem getProductDetails_id_segment a seg d st product st' :
  Contains seg "/" = false ->
  getProductDetails_ (a +:+ "/" +:+ seg +:+ "/") d st = (Ok product, st') ->
  ID product = seg
  /\ Name product = "" /\ URL product = "" /\ Price product = ""
  /\ ImageURL product = "" /\ Category_ product = "".
Proof.
  intros Hseg Hrun.
  destruct (getProductDetails_ok _ _ _ _ _ Hrun) as (Hid & Hrest).
  split; [|exact Hrest].
  rewrite (Split_second_to_last a seg Hseg) in Hid. congruence.
Qed.

End DetailIdFacts.

(** The detail page of product 7 in the fixture shop. *)
Lemma getProductDetails_id_segment_witness :
  let product := mkProduct "7" "" "" "X" "" "" "" ["3 kW"] in
  ID product = "7"
  /\ Name product = "" /\ URL product = "" /\ Price product = ""
  /\ ImageURL product = "" /\ Category_ product = "".
Proof.
  cbv zeta.
  eapply (getProductDetails_id_segment Fixture.shop Fixture.Enc Fixture.sniff
            Fixture.EncWindows1251 Fixture.decode Fixture.parse id
            "https://www.stanki.ru/catalog/p" "7" 0 init).
  - reflexivity.
  - vm_compute. reflexivity.
Defined.

(** X14.  A detail response with any status other than 200 is returned as
    the status error after the one request that brought it, without a
    retry; so is a 204. *)
Theorem getProductDetails_status_error net Encoding DetermineEncoding Windows1251 decode
        NewDocumentFromReader TrimSpace url d st resp :
  net (gets st) url = GetOk resp ->
  StatusCode resp <> 200 ->
  exists t,
    getProductDetails net Encoding DetermineEncoding Windows1251 decode
      NewDocumentFromReader TrimSpace url d st
    = (Err (ErrProductStatus (StatusCode resp)), mkState (trace st ++ t) (S (gets st)))
    /\ attempts t = 1%nat
    /\ sleeps t = [wrap64 (d * millisecond)].
Proof.
  intros Hnet Hstatus.
  exists [EvSleep (wrap64 (d * millisecond)); EvGet url].
  split; [|split; reflexivity].
  apply getProductDetails_bad_status; assumption.
Qed.

Lemma getProductDetails_status_error_witness :
  exists t,
    Fixture.details (fun _ _ => GetOk (mkResponse 204 (BodyBytes "detail")))
      "https://www.stanki.ru/catalog/p/7/"
    = (Err (ErrProductStatus 204), mkState (trace init ++ t) 1)
    /\ attempts t = 1%nat
    /\ sleeps t = [wrap64 (0 * millisecond)].
Proof.
  apply (getProductDetails_status_error
           (fun _ _ => GetOk (mkResponse 204 (BodyBytes "detail")))
           Fixture.Enc Fixture.sniff Fixture.EncWindows1251 Fixture.decode Fixture.parse id
           "https://www.stanki.ru/catalog/p/7/" 0 init
           (mkResponse 204 (BodyBytes "detail"))).
  - reflexivity.
  - cbn. lia.
Defined.

(** ** Catalogue page *)

Section CatalogueFacts.

Variable net : nat -> string -> GetResult.
Variable Encoding : Type.
Variable DetermineEncoding : string -> Encoding.
Variable Windows1251 : Encoding.
Variable decode : Encoding -> string -> string.
Variable NewDocumentFromReader : string -> Document + string.
Variable TrimSpace : string -> string.

Abbreviation getCategories_ :=
  (getCategories net Encoding DetermineEncoding Windows1251 decode
     NewDocumentFromReader TrimSpace).

(** The removal of duplicates keeps, in order, the first category of every
    URL that has not been seen. *)
Lemma uniqueByURL_spec categories :
  forall seen,
    NoDup (CatURL <$> uniqueByURL categories seen)
    /\ sublist (uniqueByURL categories seen) categories
    /\ (forall c, c ∈ uniqueByURL categories seen ->
          (CatURL c ∉ seen)
          /\ exists l1 l2, categories = l1 ++ c :: l2
                           /\ Forall (fun q => CatURL q <> CatURL c) l1)
    /\ (forall c, c ∈ categories -> CatURL c ∉ seen ->
          CatURL c ∈ (CatURL <$> uniqueByURL categories seen)).
Proof.
  induction categories as [|x l IH]; intros seen; cbn [uniqueByURL].
  - cbn. split; [constructor|]. split; [constructor|].
    split; intros c Hc; inversion Hc.
  - destruct (decide (CatURL x ∈ seen)) as [Hin | Hnin].
    + destruct (IH seen) as (Hnd & Hsub & Hfirst & Hall).
      split; [exact Hnd|]. split; [apply sublist_cons; exact Hsub|]. split.
      * intros c Hc. destruct (Hfirst c Hc) as (Hns & l1 & l2 & -> & Hl1).
        split; [exact Hns|]. exists (x :: l1), l2. split; [reflexivity|].
        constructor; [|exact Hl1]. intros Heq. rewrite Heq in Hin. contradiction.
      * intros c Hc Hns. apply elem_of_cons in Hc as [-> | Hc]; [contradiction|].
        apply Hall; assumption.
    + destruct (IH ({[CatURL x]} ∪ seen)) as (Hnd & Hsub & Hfirst & Hall).
      split; [|split; [|split]].
      * cbn [fmap list_fmap]. constructor; [|exact Hnd].
        intros Hx. apply list_elem_of_fmap in Hx as (c & Heq & Hc).
        destruct (Hfirst c Hc) as (Hns & _). apply Hns. rewrite <- Heq.
        apply elem_of_union. left. apply elem_of_singleton. reflexivity.
      * apply sublist_skip. exact Hsub.
      * intros c Hc. apply elem_of_cons in Hc as [-> | Hc].
        -- split; [exact Hnin|]. exists [], l. split; [reflexivity | constructor].
        -- destruct (Hfirst c Hc) as (Hns & l1 & l2 & -> & Hl1).
           split; [intros Hs; apply Hns; apply elem_of_union; right; exact Hs|].
           exists (x :: l1), l2. split; [reflexivity|].
           constructor; [|exact Hl1]. intros Heq. apply Hns. rewrite <- Heq.
           apply elem_of_union. left. apply elem_of_singleton. reflexivity.
      * intros c Hc Hns. cbn [fmap list_fmap].
        destruct (decide (CatURL c = CatURL x)) as [-> | Hne]; [apply list_elem_of_here|].
        apply list_elem_of_further.
        apply elem_of_cons in Hc as [-> | Hc]; [contradiction|].
        apply Hall; [exact Hc|].
        intros Hs. apply elem_of_union in Hs as [Hs | Hs]; [|contradiction].
        apply elem_of_singleton in Hs. contradiction.
Qed.

Lemma categoryOfLink_spec s c :
  categoryOfLink TrimSpace s = Some c ->
  exists href,
    Attr [s] "href" = Some href
    /\ Contains href "_" = true /\ Contains href ".html" = false
    /\ CatURL c = baseURL +:+ href
    /\ CatName c = TrimSpace (Text [s])
    /\ CatName c <> "" /\ (String.length (CatName c) < 100)%nat.
Proof.
  unfold categoryOfLink. destruct (Attr [s] "href") as [href|]; [|discriminate].
  destruct (Contains href "_") eqn:H1; [|discriminate].
  destruct (Contains href ".html") eqn:H2; [discriminate|]. cbn [negb andb].
  destruct (String.eqb_spec (TrimSpace (Text [s])) "") as [|Hne]; [discriminate|].
  destruct (Z.ltb_spec (Z.of_nat (String.length (TrimSpace (Text [s])))) 100);
    [|discriminate]. cbn [negb andb]. intros [= <-]. exists href. cbn [CatURL CatName].
  repeat split; try assumption; try reflexivity. lia.
Qed.

(** A response that the fetcher returns is the answer to one of its
    requests. *)
Lemma retry_loop_ok url maxRetries d n :
  forall i err st resp st',
    retry_loop net url maxRetries d n i err st = (Ok resp, st') ->
    exists k, (k < n)%nat /\ net (gets st + k) url = GetOk resp.
Proof.
  induction n as [|n IH]; intros i err st resp st' Hrun; [discriminate Hrun|].
  destruct (net (gets st) url) as [r | msg] eqn:Hnet.
  - rewrite (retry_loop_answered net url maxRetries d n i err r st Hnet) in Hrun.
    injection Hrun as <- _. exists O. rewrite Nat.add_0_r. split; [lia | exact Hnet].
  - rewrite (retry_loop_failed net url maxRetries d n i err msg st Hnet) in Hrun.
    apply IH in Hrun as (k & Hk & Hn). cbn [gets] in Hn.
    exists (S k). split; [lia|]. rewrite Nat.add_succ_r. exact Hn.
Qed.

(** What a successful fetch of the catalogue returns: the categories of the
    page that one of its three requests brought. *)
Lemma getCategories_ok st categories st' :
  getCategories_ st = (Ok categories, st') ->
  exists k resp b doc,
    (k < 3)%nat /\ net (gets st + k) catalogURL = GetOk resp
    /\ StatusCode resp = 200 /\ RespBody resp = BodyBytes b
    /\ NewDocumentFromReader
         (decode (chosenEncoding Encoding DetermineEncoding Windows1251 b) b) = inl doc
    /\ categories =
       uniqueByURL (omap (categoryOfLink TrimSpace) (docFind doc "a[href^='/catalog/']")) ∅.
Proof.
  unfold getCategories, bind.
  destruct (doRequestWithRetry net catalogURL 3 delay st) as [[resp | e | msg] st1] eqn:Hreq;
    try discriminate.
  unfold doRequestWithRetry in Hreq. change (Z.to_nat 3) with 3%nat in Hreq.
  apply retry_loop_ok in Hreq as (k & Hk & Hnet).
  destruct (Z.eqb_spec (StatusCode resp) 200) as [Hstatus | _]; cbn [negb]; [|discriminate].
  destruct (RespBody resp) as [b | msg] eqn:Hbody; cbn [getUTF8Reader ret fail];
    [|discriminate].
  unfold newDocument.
  destruct (NewDocumentFromReader _) as [doc | msg] eqn:Hdoc; cbn [ret fail]; [|discriminate].
  intros [= <- _]. exists k, resp, b, doc. repeat split; assumption.
Qed.

(** X15.  The categories that [getCategories] returns are read off the page
    that answered one of its three requests of the catalogue with status
    200.  They have pairwise different URLs and stand in the order of the
    links of that page.  Each comes from a link that the selector
    [a[href^='/catalog/']] finds there, whose target holds an underscore
    and no [".html"]: it bears the base URL in front of that target and
    the trimmed text of the link, which is not empty and shorter than 100
    bytes.  No such link is lost: the URL of each is the URL of a category
    returned. *)
Theorem getCategories_unique st categories st' :
  getCategories_ st = (Ok categories, st') ->
  exists k resp b doc,
    (k < 3)%nat /\ net (gets st + k) catalogURL = GetOk resp
    /\ StatusCode resp = 200 /\ RespBody resp = BodyBytes b
    /\ NewDocumentFromReader
         (decode (chosenEncoding Encoding DetermineEncoding Windows1251 b) b) = inl doc
    /\ NoDup (CatURL <$> categories)
    /\ sublist categories
         (omap (categoryOfLink TrimSpace) (docFind doc "a[href^='/catalog/']"))
    /\ Forall (fun c =>
                 exists s href,
                   s ∈ docFind doc "a[href^='/catalog/']"
                   /\ Attr [s] "href" = Some href
                   /\ Contains href "_" = true /\ Contains href ".html" = false
                   /\ CatURL c = baseURL +:+ href
                   /\ CatName c = TrimSpace (Text [s])
                   /\ CatName c <> "" /\ (String.length (CatName c) < 100)%nat)
         categories
    /\ (forall s c,
          s ∈ docFind doc "a[href^='/catalog/']" ->
          categoryOfLink TrimSpace s = Some c ->
          CatURL c ∈ (CatURL <$> categories)).
Proof.
  intros Hrun.
  destruct (getCategories_ok st categories st' Hrun)
    as (k & resp & b & doc & Hk & Hnet & Hstatus & Hbody & Hdoc & ->).
  exists k, resp, b, doc.
  set (links := omap (categoryOfLink TrimSpace) (docFind doc "a[href^='/catalog/']")).
  destruct (uniqueByURL_spec links ∅) as (Hnd & Hsub & _ & Hall).
  repeat (split; [assumption|]). split.
  - apply Forall_forall. intros c Hc.
    assert (Hin : c ∈ links) by (eapply elem_of_sublist; eassumption).
    apply list_elem_of_omap in Hin as (s & Hs & Hcat).
    destruct (categoryOfLink_spec s c Hcat) as (href & H0 & H1 & H2 & H3 & H4 & H5 & H6).
    exists s, href. auto 10.
  - intros s c Hs Hcat. apply Hall.
    + apply list_elem_of_omap. exists s. split; assumption.
    + apply not_elem_of_empty.
Qed.

(** X16.  When the catalogue is answered with any status other than 200,
    [getCategories] returns the status error after that one request,
    without a retry and without a sleep. *)
Theorem getCategories_status_error st resp :
  net (gets st) catalogURL = GetOk resp ->
  StatusCode resp <> 200 ->
  getCategories_ st
  = (Err (ErrCatalogStatus (StatusCode resp)),
     mkState (trace st ++ [EvGet catalogURL]) (S (gets st))).
Proof.
  intros Hnet Hstatus. unfold getCategories, doRequestWithRetry.
  change (Z.to_nat 3) with 3%nat. unfold bind at 1.
  rewrite (retry_loop_answered net catalogURL 3 delay 2 0 None resp st Hnet).
  apply Z.eqb_neq in Hstatus. rewrite Hstatus. reflexivity.
Qed.

End CatalogueFacts.

(** The catalogue of the fixture: two categories remain. *)
Lemma getCategories_unique_witness :
  let categories := [mkCategory "Lathes" "https://www.stanki.ru/catalog/lathes_cnc/";
                     mkCategory "Mills" "https://www.stanki.ru/catalog/mills_x/"] in
  exists k resp b doc,
    (k < 3)%nat /\ Shopfront.up (gets init + k) catalogURL = GetOk resp
    /\ StatusCode resp = 200 /\ RespBody resp = BodyBytes b
    /\ Shopfront.parse
         (Fixture.decode
            (chosenEncoding Fixture.Enc Fixture.sniff Fixture.EncWindows1251 b) b)
       = inl doc
    /\ NoDup (CatURL <$> categories)
    /\ sublist categories
         (omap (categoryOfLink id) (docFind doc "a[href^='/catalog/']"))
    /\ Forall (fun c =>
                 exists s href,
                   s ∈ docFind doc "a[href^='/catalog/']"
                   /\ Attr [s] "href" = Some href
                   /\ Contains href "_" = true /\ Contains href ".html" = false
                   /\ CatURL c = baseURL +:+ href
                   /\ CatName c = id (Text [s])
                   /\ CatName c <> "" /\ (String.length (CatName c) < 100)%nat)
         categories
    /\ (forall s c,
          s ∈ docFind doc "a[href^='/catalog/']" ->
          categoryOfLink id s = Some c ->
          CatURL c ∈ (CatURL <$> categories)).
Proof.
  cbv zeta.
  eapply (getCategories_unique Shopfront.up Fixture.Enc Fixture.sniff
            Fixture.EncWindows1251 Fixture.decode Shopfront.parse id init).
  vm_compute. reflexivity.
Defined.

(** A catalogue that answers 503. *)
Lemma getCategories_status_error_witness :
  Shopfront.catalogue Shopfront.unavailable
  = (Err (ErrCatalogStatus 503), mkState (trace init ++ [EvGet catalogURL]) 1).
Proof.
  apply (getCategories_status_error Shopfront.unavailable Fixture.Enc Fixture.sniff
           Fixture.EncWindows1251 Fixture.decode Shopfront.parse id init
           (mkResponse 503 (BodyBytes ""))).
  - reflexivity.
  - cbn. lia.
Defined.

(** ** Deduplicator: fixed points and statistics *)

Section DedupeMoreFacts.

Implicit Types (products out : list Product) (p q : Product) (id : string).

Lemma NoDup_ID_inj products p q :
  NoDup (ID <$> products) -> p ∈ products -> q ∈ products -> ID p = ID q -> p = q.
Proof.
  induction products as [|x l IH]; intros Hnd Hp Hq Heq; [inversion Hp|].
  cbn in Hnd. apply NoDup_cons in Hnd as [Hx Hnd].
  apply elem_of_cons in Hp as [-> | Hp]; apply elem_of_cons in Hq as [-> | Hq].
  - reflexivity.
  - exfalso. apply Hx. rewrite Heq. apply list_elem_of_fmap. exists q. auto.
  - exfalso. apply Hx. rewrite <- Heq. apply list_elem_of_fmap. exists p. auto.
  - apply IH; assumption.
Qed.

Lemma lastWithID_unique products p :
  NoDup (ID <$> products) -> p ∈ products -> lastWithID (ID p) products = Some p.
Proof.
  intros Hnd Hp.
  destruct (lastWithID_is_Some (ID p) products p Hp eq_refl) as [q Hq].
  rewrite Hq. f_equal.
  destruct (lastWithID_spec _ _ _ Hq) as (Hid & l1 & l2 & Hsplit & _).
  apply (NoDup_ID_inj products); try assumption.
  rewrite Hsplit. apply elem_of_app. right. apply list_elem_of_here.
Qed.

(** X17.  On records that all have an id, no two the same, the deduplicator
    changes nothing but the order. *)
Theorem removeDuplicateProducts_unique_noop products out :
  NoDup (ID <$> products) ->
  Forall (fun p => ID p <> "") products ->
  removeDuplicateProducts_returns products out ->
  out ≡ₚ products.
Proof.
  unfold removeDuplicateProducts_returns. intros Hnd Hne ->.
  apply NoDup_Permutation.
  - apply (NoDup_fmap_1 ID). apply removeDuplicateProducts_NoDup.
  - apply (NoDup_fmap_1 ID). exact Hnd.
  - intros p. rewrite removeDuplicateProducts_elem. split.
    + intros [_ Hlast]. apply lastWithID_spec in Hlast as (_ & l1 & l2 & -> & _).
      apply elem_of_app. right. apply list_elem_of_here.
    + intros Hp. split.
      * rewrite Forall_forall in Hne. apply Hne. exact Hp.
      * apply lastWithID_unique; assumption.
Qed.

(** X18.  The deduplicator is idempotent: run on its own output, it returns
    the same records. *)
Theorem removeDuplicateProducts_idempotent products out out' :
  removeDuplicateProducts_returns products out ->
  removeDuplicateProducts_returns out out' ->
  out' ≡ₚ out.
Proof.
  intros Hout Hout'.
  apply (removeDuplicateProducts_unique_noop out out'); [| |exact Hout'].
  - unfold removeDuplicateProducts_returns in Hout. rewrite Hout.
    apply removeDuplicateProducts_NoDup.
  - apply Forall_forall. intros p Hp.
    unfold removeDuplicateProducts_returns in Hout. rewrite Hout in Hp.
    apply removeDuplicateProducts_elem in Hp. tauto.
Qed.

(** [duplicateCount] holds, under every non-empty id of the input, the
    number of records read with it. *)
Lemma duplicateCountOf_lookup products id :
  duplicateCountOf products !! id =
  if decide (id = "") then None
  else match filter (fun q => ID q = id) products with
       | [] => None
       | l => Some (len l)
       end.
Proof.
  unfold duplicateCountOf.
  induction products as [|x l IH] using rev_ind.
  - cbn. rewrite lookup_empty. destruct (decide (id = "")); reflexivity.
  - rewrite fold_left_app, filter_app. cbn [fold_left].
    destruct (String.eqb_spec (ID x) "") as [Hx | Hx].
    + rewrite IH. destruct (decide (id = "")) as [-> | Hid]; [reflexivity|].
      rewrite filter_cons_False by congruence. rewrite app_nil_r. reflexivity.
    + destruct (decide (ID x = id)) as [<- | Hne].
      * rewrite lookup_insert_eq, filter_cons_True by reflexivity.
        rewrite IH. destruct (decide (ID x = "")); [contradiction|].
        change (filter (fun q => ID q = ID x) []) with (@nil Product).
        destruct (filter (fun q => ID q = ID x) l) as [|y k]; cbn [app default].
        -- reflexivity.
        -- f_equal. unfold len. cbn [length]. rewrite length_app. cbn [length].
           unfold id. lia.
      * rewrite lookup_insert_ne by exact Hne. rewrite IH.
        rewrite filter_cons_False by exact Hne. rewrite app_nil_r. reflexivity.
Qed.

(** X19.  The collision statistics count right: for every non-empty id the
    counter holds the number of records of the input with that id, at
    least one; ids that do not occur, and the empty id, have no counter. *)
Theorem duplicateCountOf_counts products id :
  (id <> "" ->
   forall n, duplicateCountOf products !! id = Some n <->
             0 < n /\ n = len (filter (fun q => ID q = id) products))
  /\ duplicateCountOf products !! "" = None.
Proof.
  rewrite !duplicateCountOf_lookup. split.
  - intros Hid n. destruct (decide (id = "")); [contradiction|].
    destruct (filter (fun q => ID q = id) products) as [|y k]; unfold len; cbn [length].
    + split; [discriminate | lia].
    + split; [intros [= <-]; lia | intros [_ ->]; reflexivity].
  - destruct (decide ("" = "")); [reflexivity | contradiction].
Qed.

End DedupeMoreFacts.

(** Three records with pairwise different ids, read back in the order of the
    map. *)
Lemma removeDuplicateProducts_unique_noop_witness :
  let products := [Fixture.item "b" "2"; Fixture.item "a" "1"; Fixture.item "c" "3"] in
  removeDuplicateProducts products ≡ₚ products.
Proof.
  cbv zeta.
  apply (removeDuplicateProducts_unique_noop
           [Fixture.item "b" "2"; Fixture.item "a" "1"; Fixture.item "c" "3"]).
  - vm_compute. repeat constructor; intros H; repeat (apply elem_of_cons in H as [H | H]);
      try discriminate; inversion H.
  - repeat constructor; discriminate.
  - unfold removeDuplicateProducts_returns. reflexivity.
Defined.

(** The scenario of the two records with the id 42, deduplicated twice. *)
Lemma removeDuplicateProducts_idempotent_witness :
  [Fixture.item "42" "new"] ≡ₚ [Fixture.item "42" "new"].
Proof.
  apply (removeDuplicateProducts_idempotent
           [Fixture.item "42" "old"; Fixture.item "42" "new"]
           [Fixture.item "42" "new"] [Fixture.item "42" "new"]).
  - unfold removeDuplicateProducts_returns. vm_compute. reflexivity.
  - unfold removeDuplicateProducts_returns. vm_compute. reflexivity.
Defined.

Example duplicateCountOf_scenario :
  let products := [Fixture.item "42" "old"; Fixture.item "" "anon";
                   Fixture.item "7" "lathe"; Fixture.item "42" "new"] in
  duplicateCountOf products !! "42" = Some 2
  /\ duplicateCountOf products !! "7" = Some 1
  /\ duplicateCountOf products !! "" = None
  /\ duplicatesFound products = 1.
Proof. cbv zeta. repeat split; vm_compute; reflexivity. Qed.

(** ** Enrichment pass: requests and records *)

Section EnrichPassFacts.

Variable net : nat -> string -> GetResult.
Variable Encoding : Type.
Variable DetermineEncoding : string -> Encoding.
Variable Windows1251 : Encoding.
Variable decode : Encoding -> string -> string.
Variable NewDocumentFromReader : string -> Document + string.
Variable TrimSpace : string -> string.

Abbreviation details_ :=
  (getProductDetails net Encoding DetermineEncoding Windows1251 decode
     NewDocumentFromReader TrimSpace).
Abbreviation enrichProduct_ :=
  (enrichProduct net Encoding DetermineEncoding Windows1251 decode
     NewDocumentFromReader TrimSpace).
Abbreviation enrichProductsWithDetails_ :=
  (enrichProductsWithDetails net Encoding DetermineEncoding Windows1251 decode
     NewDocumentFromReader TrimSpace).

(** A detail fetch sleeps the delay and makes one or two requests. *)
Lemma getProductDetails_wires url d st r st' :
  details_ url d st = (r, st') ->
  exists t,
    st' = mkState (trace st ++ EvSleep (wrap64 (d * millisecond)) :: EvGet url :: t)
                  (gets st + S (attempts t))
    /\ wires t /\ (attempts t <= 1)%nat.
Proof.
  unfold getProductDetails, sleep_ms, doRequestWithRetry. change (Z.to_nat 2) with 2%nat.
  unfold bind at 1. cbn [emit].
  set (st1 := mkState _ (gets st)).
  destruct (retry_loop_wires net url 2 d 2 0 None st1) as (t & E & W & Hle & Hhead).
  destruct (Hhead ltac:(discriminate)) as [w ->].
  assert (Ww : wires w) by (inversion W; assumption).
  change (attempts (EvGet url :: w)) with (S (attempts w)) in *.
  intros Hrun. exists w.
  unfold bind at 1 in Hrun.
  destruct (retry_loop net url 2 d 2 0 None st1) as [[resp | e | msg] st2];
    cbn [snd] in E; subst st2; subst st1; cbn [trace gets] in *.
  - assert (Hst : st' = mkState ((trace st ++ [EvSleep (wrap64 (d * millisecond))])
                                 ++ EvGet url :: w) (gets st + S (attempts w))).
    { destruct (negb (StatusCode resp =? 200)); [injection Hrun as _ <-; reflexivity|].
      unfold bind at 1 in Hrun.
      destruct (RespBody resp) as [b | msg]; cbn [getUTF8Reader ret fail] in Hrun;
        [|injection Hrun as _ <-; reflexivity].
      unfold bind at 1, newDocument in Hrun.
      destruct (NewDocumentFromReader _) as [doc | msg]; cbn [ret fail] in Hrun;
        [|injection Hrun as _ <-; reflexivity].
      unfold bind at 1 in Hrun.
      destruct (0 <? len (Split url "/")).
      - destruct (index (Split url "/") (len (Split url "/") - 2)); cbn [ret panic] in Hrun;
          injection Hrun as _ <-; reflexivity.
      - cbn [ret] in Hrun. injection Hrun as _ <-. reflexivity. }
    rewrite Hst, <- app_assoc. repeat split; try assumption; lia.
  - injection Hrun as _ <-. rewrite <- app_assoc. repeat split; try assumption; lia.
  - injection Hrun as _ <-. rewrite <- app_assoc. repeat split; try assumption; lia.
Qed.

Lemma enrichProduct_wires prod d st r st' :
  enrichProduct_ prod d st = (r, st') ->
  exists t,
    st' = mkState (trace st ++ t) (gets st + attempts t)
    /\ wires t
    /\ (attempts t <= if alreadyEnriched prod then 0 else 2)%nat.
Proof.
  unfold enrichProduct, enrichWorker. destruct (alreadyEnriched prod).
  - intros [= _ <-]. exists []. rewrite app_nil_r, Nat.add_0_r. destruct st.
    repeat split; [constructor | cbn; lia].
  - destruct (details_ (URL prod) d st) as [r1 st1] eqn:Hd.
    destruct (getProductDetails_wires _ _ _ _ _ Hd) as (t & -> & W & Hle).
    intros Hrun.
    assert (st' = mkState (trace st ++ EvSleep (wrap64 (d * millisecond))
                                    :: EvGet (URL prod) :: t)
                          (gets st + S (attempts t)))
      by (destruct r1; injection Hrun as _ <-; reflexivity).
    subst st'. exists (EvSleep (wrap64 (d * millisecond)) :: EvGet (URL prod) :: t).
    split; [reflexivity|]. split.
    + constructor; [reflexivity|]. constructor; [reflexivity | exact W].
    + change (attempts (EvSleep (wrap64 (d * millisecond)) :: EvGet (URL prod) :: t))
        with (S (attempts t)). lia.
Qed.




Lemma enriches_complete p q :
  enriches p q -> alreadyEnriched p = true -> alreadyEnriched q = true.
Proof.
  intros (_ & _ & _ & _ & _ & _ & Hd & Hf).
  unfold alreadyEnriched, len. intros Hp. apply andb_true_iff in Hp as [Hpf Hpd].
  apply andb_true_iff. split.
  - apply Z.ltb_lt. apply Z.ltb_lt in Hpf.
    destruct Hf as [-> | Hne]; [exact Hpf|].
    destruct (Features q); [contradiction | cbn [length]; lia].
  - apply negb_true_iff, String.eqb_neq. apply negb_true_iff, String.eqb_neq in Hpd.
    destruct Hd as [-> | Hne]; assumption.
Qed.

(** X21.  When the pass completes, it returns as many records as it was
    given, with the same ids.  Every record it returns is one of its
    records with the same id, name, URL, price, image and category, and
    with the description and the features it had or non-empty ones in
    their place: a record that was complete before is complete after. *)
Theorem enrichProductsWithDetails_keeps products d st out st' :
  enrichProductsWithDetails_ products d st = (Ok out, st') ->
  length out = length products
  /\ ID <$> out ≡ₚ ID <$> products
  /\ Forall (fun q => exists p,
                p ∈ products /\ enriches p q
                /\ (alreadyEnriched p = true -> alreadyEnriched q = true))
       out.
Proof.
  intros Hrun.
  pose proof (enrichProductsWithDetails_enriches net Encoding DetermineEncoding Windows1251
                decode NewDocumentFromReader TrimSpace products d st out st' Hrun) as H.
  clear Hrun.
  split; [symmetry; eapply Forall2_length; exact H|]. split.
  - induction H as [|p q l k Hpq _ IH]; [reflexivity|].
    cbn [fmap list_fmap]. destruct Hpq as (-> & _). constructor. exact IH.
  - induction H as [|p q l k Hpq _ IH]; [constructor|].
    constructor.
    + exists p. split; [apply list_elem_of_here|]. split; [exact Hpq|].
      apply enriches_complete. exact Hpq.
    + eapply Forall_impl; [exact IH|]. intros q' (p' & Hin & He & Hc).
      exists p'. split; [apply list_elem_of_further; exact Hin | auto].
Qed.

(** X23.  Deduplication followed by enrichment, as [main] runs them: when the
    enrichment completes, the records it leaves have pairwise different
    ids, none empty. *)
Theorem dedupe_then_enrich_unique products unique d st out st' :
  removeDuplicateProducts_returns products unique ->
  enrichProductsWithDetails_ unique d st = (Ok out, st') ->
  NoDup (ID <$> out) /\ Forall (fun q => ID q <> "") out.
Proof.
  intros Hu Hrun.
  destruct (enrichProductsWithDetails_keeps unique d st out st' Hrun) as (_ & Hids & Hall).
  unfold removeDuplicateProducts_returns in Hu. split.
  - rewrite Hids, Hu. apply removeDuplicateProducts_NoDup.
  - eapply Forall_impl; [exact Hall|]. intros q (p & Hp & He & _).
    rewrite Hu in Hp. apply removeDuplicateProducts_elem in Hp as [Hne _].
    destruct He as (-> & _). exact Hne.
Qed.

End EnrichPassFacts.

(** Two records in the fixture shop: one complete, one bare. *)
Lemma enrichProductsWithDetails_keeps_witness :
  let whole := mkProduct "1" "mill" "https://www.stanki.ru/catalog/p/1/" "Y" "" "" ""
                 ["5 kW"] in
  let bare := mkProduct "7" "lathe" "https://www.stanki.ru/catalog/p/7/" "" "" "" "" [] in
  let out := [whole;
              mkProduct "7" "lathe" "https://www.stanki.ru/catalog/p/7/" "X" "" "" ""
                ["3 kW"]] in
  length out = length [whole; bare]
  /\ ID <$> out ≡ₚ ID <$> [whole; bare]
  /\ Forall (fun q => exists p,
                p ∈ [whole; bare] /\ enriches p q
                /\ (alreadyEnriched p = true -> alreadyEnriched q = true))
       out.
Proof.
  cbv zeta.
  eapply (enrichProductsWithDetails_keeps Fixture.shop Fixture.Enc Fixture.sniff
            Fixture.EncWindows1251 Fixture.decode Fixture.parse id _ 0 init).
  vm_compute. reflexivity.
Defined.

(** A harvest with a duplicate and a nameless record, deduplicated and then
    enriched in the fixture shop. *)
Lemma dedupe_then_enrich_unique_witness :
  let out := [mkProduct "7" "new" "https://www.stanki.ru/catalog/p/7/" "X" "" "" ""
                ["3 kW"]] in
  NoDup (ID <$> out) /\ Forall (fun q => ID q <> "") out.
Proof.
  cbv zeta.
  eapply (dedupe_then_enrich_unique Fixture.shop Fixture.Enc Fixture.sniff
            Fixture.EncWindows1251 Fixture.decode Fixture.parse id
            [mkProduct "7" "old" "https://www.stanki.ru/catalog/p/7/" "" "" "" "" [];
             mkProduct "" "anon" "https://www.stanki.ru/catalog/p/0/" "" "" "" "" [];
             mkProduct "7" "new" "https://www.stanki.ru/catalog/p/7/" "" "" "" "" []]
            [mkProduct "7" "new" "https://www.stanki.ru/catalog/p/7/" "" "" "" "" []]
            0 init).
  - unfold removeDuplicateProducts_returns. vm_compute. reflexivity.
  - vm_compute. reflexivity.
Defined.

(** ** Output: the CSV file *)

Section OutputFacts.

Variable fails : nat -> option string.

Lemma rows_of_app a b : rows_of (a ++ b) = rows_of a ++ rows_of b.
Proof. unfold rows_of. apply flat_map_app. Qed.

Lemma batches_of_app a b : batches_of (a ++ b) = batches_of a ++ batches_of b.
Proof. apply omap_app. Qed.

(** The loop hands the rows over in full batches, in order, and keeps back
    fewer than a batch. *)
Lemma csv_loop_spec products :
  forall records ops r ops',
    len records < batchSize ->
    csv_loop fails products records ops = (r, ops') ->
    exists new,
      ops' = ops ++ new
      /\ Forall full_batch new
      /\ match r with
         | inl rest =>
             rows_of new ++ rest = records ++ map recordOf products
             /\ len rest < batchSize
         | inr _ =>
             exists tail, rows_of new ++ tail = records ++ map recordOf products
         end.
Proof.
  induction products as [|product rest IH]; intros records ops r ops' Hlen Hrun;
    cbn [csv_loop] in Hrun.
  - injection Hrun as <- <-. exists []. rewrite !app_nil_r. cbn.
    split; [reflexivity|]. split; [constructor|]. split; [reflexivity | exact Hlen].
  - cbv zeta in Hrun.
    destruct (Z.leb_spec batchSize (len (records ++ [recordOf product]))) as [Hfull | Hroom].
    + assert (Hexact : len (records ++ [recordOf product]) = batchSize).
      { unfold len in *. rewrite length_app in *. cbn [length] in *. lia. }
      unfold call in Hrun. destruct (fails (length ops)) as [err|].
      * injection Hrun as <- <-. exists [OpCsvWriteAll (records ++ [recordOf product])].
        split; [reflexivity|]. split.
        -- constructor; [|constructor]. eexists. split; [reflexivity | exact Hexact].
        -- exists (map recordOf rest). cbn [rows_of flat_map map].
           rewrite app_nil_r, <- app_assoc. reflexivity.
      * destruct (IH [] _ _ _ ltac:(unfold len, batchSize; cbn; lia) Hrun)
          as (new & -> & Hall & Hr).
        exists (OpCsvWriteAll (records ++ [recordOf product]) :: new).
        rewrite <- app_assoc. split; [reflexivity|]. split.
        -- constructor; [|exact Hall]. eexists. split; [reflexivity | exact Hexact].
        -- change (rows_of (OpCsvWriteAll (records ++ [recordOf product]) :: new))
             with ((records ++ [recordOf product]) ++ rows_of new).
           cbn [map]. destruct r as [rest' | err].
           ++ destruct Hr as [Hrows Hl]. split; [|exact Hl].
              rewrite <- !app_assoc. cbn [app] in *. rewrite Hrows. reflexivity.
           ++ destruct Hr as [tail Hrows]. exists tail.
              rewrite <- !app_assoc. cbn [app] in *. rewrite Hrows. reflexivity.
    + destruct (IH _ _ _ _ Hroom Hrun) as (new & -> & Hall & Hr).
      exists new. split; [reflexivity|]. split; [exact Hall|].
      cbn [map]. destruct r as [rest' | err].
      * destruct Hr as [Hrows Hl]. split; [|exact Hl].
        rewrite Hrows, <- app_assoc. reflexivity.
      * destruct Hr as [tail Hrows]. exists tail. rewrite Hrows, <- app_assoc. reflexivity.
Qed.

Lemma full_batch_batches new :
  Forall full_batch new ->
  Forall (fun b => 0 < len b <= batchSize) (batches_of new).
Proof.
  induction 1 as [|o new Ho _ IH]; [constructor|].
  destruct Ho as (records & -> & Hlen).
  change (batches_of (OpCsvWriteAll records :: new)) with (records :: batches_of new).
  constructor; [unfold batchSize in *; lia | exact IH].
Qed.

Lemma rows_of_framed filename mid : rows_of (framed filename mid) = headers :: rows_of mid.
Proof.
  unfold framed. rewrite !rows_of_app.
  change (rows_of [OpCsvFlush; OpClose]) with (@nil (list string)).
  rewrite app_nil_r. reflexivity.
Qed.

Lemma batches_of_framed filename mid : batches_of (framed filename mid) = batches_of mid.
Proof.
  unfold framed. rewrite !batches_of_app.
  change (batches_of [OpCsvFlush; OpClose]) with (@nil (list (list string))).
  rewrite app_nil_r. reflexivity.
Qed.

Lemma last_framed filename mid : last (framed filename mid) = Some OpClose.
Proof.
  unfold framed. change [OpCsvFlush; OpClose] with ([OpCsvFlush] ++ [OpClose]).
  rewrite !app_assoc. apply last_snoc.
Qed.

Lemma framed_app ops filename mid :
  ((((ops ++ [OpCreate filename]) ++ [OpWrite bom]) ++ [OpCsvWrite headers]) ++ mid)
    ++ [OpCsvFlush] ++ [OpClose]
  = ops ++ framed filename mid.
Proof. unfold framed. rewrite <- !app_assoc. reflexivity. Qed.

(** X22.  When [saveToCSV] returns no error, the writer has been handed the
    header row and then the row of every record, in the order of the
    records and none twice, in batches of at most 1000 rows and never an
    empty one, between the byte-order mark and the flush and close.
    Whatever it returns, the rows handed over are a prefix of those rows,
    and a file that was created is closed at the end. *)
Theorem saveToCSV_rows products filename ops r ops' :
  saveToCSV fails products filename ops = (r, ops') ->
  exists new,
    ops' = ops ++ new
    /\ rows_of new `prefix_of` headers :: map recordOf products
    /\ Forall (fun b => 0 < len b <= batchSize) (batches_of new)
    /\ (fails (length ops) = None -> last new = Some OpClose)
    /\ (r = None ->
        rows_of new = headers :: map recordOf products
        /\ exists mid,
            new = OpCreate filename :: OpWrite bom :: OpCsvWrite headers
                  :: mid ++ [OpCsvFlush; OpClose]).
Proof.
  unfold saveToCSV, call. cbn [fst snd].
  destruct (fails (length ops)) as [e0|] eqn:F0.
  { intros [= <- <-]. exists [OpCreate filename].
    split; [reflexivity|]. split; [apply prefix_nil|]. split; [constructor|].
    split; [discriminate | discriminate]. }
  destruct (fails (length (ops ++ [OpCreate filename]))) as [e1|].
  { intros [= <- <-]. exists [OpCreate filename; OpWrite bom; OpClose].
    rewrite <- !app_assoc.
    split; [reflexivity|]. split; [apply prefix_nil|]. split; [constructor|].
    split; [reflexivity | discriminate]. }
  destruct (fails (length ((ops ++ [OpCreate filename]) ++ [OpWrite bom]))) as [e2|].
  { intros [= <- <-]. exists (framed filename []).
    split; [unfold framed; rewrite <- !app_assoc; reflexivity|].
    rewrite rows_of_framed, batches_of_framed.
    split; [exists (map recordOf products); reflexivity|].
    split; [constructor|]. split; [intros _; apply last_framed | discriminate]. }
  destruct (csv_loop fails products [] _) as [[rest | e3] ops1] eqn:Hloop.
  - destruct (csv_loop_spec products [] _ _ _ ltac:(unfold len, batchSize; cbn; lia) Hloop)
      as (new & -> & Hall & Hrows & Hrest).
    cbn [app] in Hrows.
    pose proof (full_batch_batches new Hall) as Hb.
    destruct (Z.ltb_spec 0 (len rest)) as [Hpos | Hzero]; cbv beta iota zeta.
    + assert (Hshape : forall r0 : option string,
                 exists new0,
                   ((((((ops ++ [OpCreate filename]) ++ [OpWrite bom])
                       ++ [OpCsvWrite headers]) ++ new) ++ [OpCsvWriteAll rest])
                     ++ [OpCsvFlush]) ++ [OpClose] = ops ++ new0
                   /\ rows_of new0 `prefix_of` headers :: map recordOf products
                   /\ Forall (fun b => 0 < len b <= batchSize) (batches_of new0)
                   /\ (@None string = None -> last new0 = Some OpClose)
                   /\ (r0 = None ->
                       rows_of new0 = headers :: map recordOf products
                       /\ exists mid,
                           new0 = OpCreate filename :: OpWrite bom :: OpCsvWrite headers
                                  :: mid ++ [OpCsvFlush; OpClose])).
      { intros r0. exists (framed filename (new ++ [OpCsvWriteAll rest])).
        split; [unfold framed; rewrite <- !app_assoc; reflexivity|].
        rewrite rows_of_framed, batches_of_framed, rows_of_app, batches_of_app.
        change (rows_of [OpCsvWriteAll rest]) with (rest ++ []).
        change (batches_of [OpCsvWriteAll rest]) with [rest].
        rewrite app_nil_r, Hrows.
        split; [reflexivity|]. split.
        { apply Forall_app. split; [exact Hb|]. constructor; [lia | constructor]. }
        split; [intros _; apply last_framed|].
        intros _. split; [reflexivity|]. exists (new ++ [OpCsvWriteAll rest]). reflexivity. }
      match goal with
      | |- context [match fails ?n with _ => _ end] => destruct (fails n) as [e4|]
      end; intros [= <- <-]; apply Hshape.
    + intros [= <- <-]. exists (framed filename new).
      split; [unfold framed; rewrite <- !app_assoc; reflexivity|].
      assert (rest = []) as ->
          by (destruct rest; [reflexivity | unfold len in *; cbn in *; lia]).
      rewrite app_nil_r in Hrows.
      rewrite rows_of_framed, batches_of_framed, Hrows.
      split; [reflexivity|]. split; [exact Hb|].
      split; [intros _; apply last_framed|].
      intros _. split; [reflexivity|]. exists new. reflexivity.
  - destruct (csv_loop_spec products [] _ _ _ ltac:(unfold len, batchSize; cbn; lia) Hloop)
      as (new & -> & Hall & tail & Hrows).
    cbn [app] in Hrows.
    intros [= <- <-]. exists (framed filename new).
    split; [unfold framed; rewrite <- !app_assoc; reflexivity|].
    rewrite rows_of_framed, batches_of_framed.
    split; [exists tail; rewrite <- Hrows; reflexivity|].
    split; [apply full_batch_batches; exact Hall|].
    split; [intros _; apply last_framed | discriminate].
Qed.

End OutputFacts.

(** 2001 records on a disk that takes them all: three batches. *)
Lemma saveToCSV_rows_witness :
  let products := repeat (Fixture.item "1" "a") 2001 in
  exists new,
    (saveToCSV (fun _ => None) products "products.csv" []).2 = [] ++ new
    /\ rows_of new `prefix_of` headers :: map recordOf products
    /\ Forall (fun b => 0 < len b <= batchSize) (batches_of new)
    /\ ((fun _ : nat => @None string) (length (@nil sink_op)) = None ->
        last new = Some OpClose)
    /\ ((saveToCSV (fun _ => None) products "products.csv" []).1 = None ->
        rows_of new = headers :: map recordOf products
        /\ exists mid,
            new = OpCreate "products.csv" :: OpWrite bom :: OpCsvWrite headers
                  :: mid ++ [OpCsvFlush; OpClose]).
Proof.
  cbv zeta.
  apply (saveToCSV_rows (fun _ => None) (repeat (Fixture.item "1" "a") 2001)
           "products.csv" []).
  destruct (saveToCSV _ _ _ _) as [r ops']. reflexivity.
Defined.

Example saveToCSV_batches :
  let saved := saveToCSV (fun _ => None) (repeat (Fixture.item "1" "a") 2001)
                 "products.csv" [] in
  saved.1 = None
  /\ map (fun b => length b) (batches_of saved.2) = [1000; 1000; 1]%nat
  /\ length (rows_of saved.2) = 2002%nat.
Proof. cbv zeta. repeat split; vm_compute; reflexivity. Qed.
